(** * DealFlow lead pipeline: a shallow embedding of [dealflow/dealflow.py]

    The Python module keeps three module-level globals, [LEADS] (a dict from
    lead id to [Lead]), [SALES_REPS] (the roster, a list of dicts) and
    [route_counter], and exposes five operations on them.  Here the globals
    are the fields of an explicit [State], the operations are computations in
    a state-and-exception monad (an exception leaves whatever was written
    before it), and Python's insertion-ordered [dict] is an association list
    that is updated in place.  The one builtin whose behaviour rests on
    tables outside the module, [str.lower], is a parameter of the
    development; the worked examples at the end use ASCII names, on which
    it is the map of A-Z to a-z.  *)

From Stdlib Require Import ZArith List String Ascii Bool Lia DecimalString.
Import ListNotations.
Open Scope string_scope.
Open Scope Z_scope.

(** ** Python values and exceptions *)

(** The values a lead's [extra] dict holds. *)
Inductive PyVal : Type :=
| VNone
| VBool (b : bool)
| VInt (z : Z)
| VStr (s : string).

(** [v == s] for a string literal [s]: only a [str] with the same
    characters compares equal. *)
Definition py_eq_str (v : PyVal) (s : string) : bool :=
  match v with
  | VStr t => String.eqb t s
  | _ => false
  end.

(** The exceptions the module can raise; [KeyError] carries the missing key. *)
Inductive PyErr : Type :=
| KeyError (key : PyVal)
| ZeroDivisionError
| IndexError.

Inductive Outcome (A : Type) : Type :=
| Return (a : A)
| Raise (e : PyErr).
Arguments Return {A} a.
Arguments Raise {A} e.

Definition succeeded {A : Type} (o : Outcome A) : bool :=
  match o with
  | Return _ => true
  | Raise _ => false
  end.

(** ** Python's [dict]: insertion-ordered, one entry per key *)

Class KeyEq (K : Type) := keq : K -> K -> bool.

#[global] Instance KeyEq_Z : KeyEq Z := Z.eqb.
#[global] Instance KeyEq_string : KeyEq string := String.eqb.

Module PyDict.
Section Ops.
Context {K V : Type} `{KeyEq K}.

Definition t : Type := list (K * V).

(** [d.get(k)] *)
Fixpoint get (k : K) (d : t) : option V :=
  match d with
  | [] => None
  | (k', v) :: rest => if keq k k' then Some v else get k rest
  end.

(** [d.get(k, dflt)] *)
Definition get_default (k : K) (dflt : V) (d : t) : V :=
  match get k d with
  | Some v => v
  | None => dflt
  end.

(** [k in d] *)
Definition contains (k : K) (d : t) : bool :=
  match get k d with
  | Some _ => true
  | None => false
  end.

(** [d[k] = v]: an existing key keeps its position, a new one goes last. *)
Fixpoint set (k : K) (v : V) (d : t) : t :=
  match d with
  | [] => [(k, v)]
  | (k', v') :: rest =>
      if keq k k' then (k', v) :: rest else (k', v') :: set k v rest
  end.

(** [d.update(e)] *)
Definition update (d e : t) : t :=
  fold_left (fun acc kv => set (fst kv) (snd kv) acc) e d.

(** [len(d)] *)
Definition len (d : t) : Z := Z.of_nat (List.length d).

Definition keys (d : t) : list K := map fst d.
Definition values (d : t) : list V := map snd d.
End Ops.
Arguments t : clear implicits.
End PyDict.

(** [sum(d.values())] *)
Definition sum_values {K : Type} (d : PyDict.t K Z) : Z :=
  fold_right Z.add 0 (PyDict.values d).

(** ** Strings *)

Definition nl : string := String "010" EmptyString.

(** [str(n)] for an int *)
Definition str_of_int (n : Z) : string := NilZero.string_of_int (Z.to_int n).

(** [s.replace(old, new)] for a one-character [old] *)
Fixpoint str_replace_char (old : ascii) (new : string) (s : string) : string :=
  match s with
  | EmptyString => EmptyString
  | String c rest =>
      if Ascii.eqb c old then new ++ str_replace_char old new rest
      else String c (str_replace_char old new rest)
  end.

Definition lower_ascii (c : ascii) : ascii :=
  let n := nat_of_ascii c in
  if (Nat.leb 65 n && Nat.leb n 90)%bool then ascii_of_nat (n + 32) else c.

(** What [s.lower()] does to a string of ASCII characters: the letters A-Z
    go to a-z.  It stands in for [str.lower] in the worked examples, whose
    names are ASCII. *)
Fixpoint ascii_lower (s : string) : string :=
  match s with
  | EmptyString => EmptyString
  | String c rest => String (lower_ascii c) (ascii_lower rest)
  end.

Section DealFlow.

(** [str.lower].  A string here is the UTF-8 text of a Python [str]; how
    [lower] maps it is fixed by the interpreter's Unicode tables, which the
    module does not contain, so the development takes the function as
    given and assumes nothing about it. *)
Variable lower : string -> string.

(** ** The data model *)

(** An entry of [SALES_REPS]: a dict with the keys "id", "name", "specialty"
    and "comment". *)
Record Rep : Type := mkRep {
  rep_id : Z;
  rep_name : string;
  rep_specialty : string;
  rep_comment : string
}.

Record Lead : Type := mkLead {
  id : Z;
  created_at : Z;
  name : string;
  email : string;
  source : string;
  extra : PyDict.t string PyVal;
  status : string;
  score : option string;
  assigned_to : option Rep
}.

(** The module's globals, and what [print] has written so far. *)
Record State : Type := mkState {
  LEADS : PyDict.t Z Lead;
  SALES_REPS : list Rep;
  route_counter : Z;
  stdout : list string
}.

Definition Alice : Rep :=
  mkRep 1 "Alice" "Startup founders, corporate execs"
        "Great with high-value and target buyers".
Definition Bob : Rep :=
  mkRep 2 "Bob" "ML engineers, students, researchers"
        "Technical, connects with influencers and evangelists".
Definition Carol : Rep :=
  mkRep 3 "Carol" "Investors, VCs, referrals"
        "Understands investor mindset, builds relationships".

(** The state right after the module is imported. *)
Definition initial_state : State :=
  {| LEADS := []; SALES_REPS := [Alice; Bob; Carol]; route_counter := 0;
     stdout := [] |}.

(** ** The state-and-exception monad *)

Definition M (A : Type) : Type := State -> Outcome A * State.

Definition ret {A : Type} (a : A) : M A := fun s => (Return a, s).

Definition bind {A B : Type} (c : M A) (k : A -> M B) : M B :=
  fun s =>
    match c s with
    | (Return a, s') => k a s'
    | (Raise e, s') => (Raise e, s')
    end.

Definition raise {A : Type} (e : PyErr) : M A := fun s => (Raise e, s).

Definition read {A : Type} (f : State -> A) : M A := fun s => (Return (f s), s).

Definition write (f : State -> State) : M unit := fun s => (Return tt, f s).

Notation "x <- c ;; k" := (bind c (fun x => k))
  (at level 61, c at next level, right associativity).
Notation "c ;;; k" := (bind c (fun _ => k))
  (at level 61, right associativity).

(** [LEADS[lead_id]] *)
Definition LEADS_getitem (lead_id : Z) : M Lead :=
  leads <- read LEADS ;;
  match PyDict.get lead_id leads with
  | Some lead => ret lead
  | None => raise (KeyError (VInt lead_id))
  end.

(** [LEADS[lead_id] = lead] *)
Definition LEADS_setitem (lead_id : Z) (lead : Lead) : M unit :=
  write (fun s =>
    {| LEADS := PyDict.set lead_id lead (LEADS s);
       SALES_REPS := SALES_REPS s;
       route_counter := route_counter s;
       stdout := stdout s |}).

(** [print(line)] *)
Definition print (line : string) : M unit :=
  write (fun s =>
    {| LEADS := LEADS s;
       SALES_REPS := SALES_REPS s;
       route_counter := route_counter s;
       stdout := (stdout s ++ [line])%list |}).

(** [l[i]] on a list, with Python's negative indices. *)
Definition list_getitem {A : Type} (l : list A) (i : Z) : Outcome A :=
  let n := Z.of_nat (List.length l) in
  let j := if i <? 0 then i + n else i in
  if (0 <=? j) && (j <? n) then
    match nth_error l (Z.to_nat j) with
    | Some a => Return a
    | None => Raise IndexError
    end
  else Raise IndexError.

Definition lift {A : Type} (o : Outcome A) : M A := fun s => (o, s).

(** The same sequencing for the local computations of one call. *)
Definition obind {A B : Type} (o : Outcome A) (k : A -> Outcome B) : Outcome B :=
  match o with
  | Return a => k a
  | Raise e => Raise e
  end.

(** [a % b] on ints: Python rounds the quotient down, as [Z.modulo] does. *)
Definition py_mod (a b : Z) : Outcome Z :=
  if b =? 0 then Raise ZeroDivisionError else Return (a mod b).

(** [d[k] += 1] *)
Definition incr (k : string) (d : PyDict.t string Z) : Outcome (PyDict.t string Z) :=
  match PyDict.get k d with
  | Some n => Return (PyDict.set k (n + 1) d)
  | None => Raise (KeyError (VStr k))
  end.

(** Field updates on a [Lead] object. *)
Definition set_extra (e : PyDict.t string PyVal) (l : Lead) : Lead :=
  mkLead (id l) (created_at l) (name l) (email l) (source l) e
         (status l) (score l) (assigned_to l).
Definition set_score (sc : option string) (l : Lead) : Lead :=
  mkLead (id l) (created_at l) (name l) (email l) (source l) (extra l)
         (status l) sc (assigned_to l).
Definition set_assigned_to (r : option Rep) (l : Lead) : Lead :=
  mkLead (id l) (created_at l) (name l) (email l) (source l) (extra l)
         (status l) (score l) r.
Definition set_status (st : string) (l : Lead) : Lead :=
  mkLead (id l) (created_at l) (name l) (email l) (source l) (extra l)
         st (score l) (assigned_to l).

(** ** The five operations *)

(** [extra or {}] *)
Definition extra_or_empty (extra : option (PyDict.t string PyVal))
  : PyDict.t string PyVal :=
  match extra with
  | None => []
  | Some [] => []
  | Some d => d
  end.

(** [ingest_lead(name, email, source, extra=None)].  [utcnow] is what
    [datetime.utcnow] answers when the [Lead] is built. *)
Definition ingest_lead (utcnow : Z) (name email source : string)
    (extra : option (PyDict.t string PyVal)) : M Lead :=
  leads <- read LEADS ;;
  let lid := PyDict.len leads + 1 in
  let lead := {| id := lid; created_at := utcnow; name := name; email := email;
                 source := source; extra := extra_or_empty extra;
                 status := "new"; score := None; assigned_to := None |} in
  LEADS_setitem lid lead ;;;
  ret lead.

Definition enrichment_for (lead : Lead) : PyDict.t string PyVal :=
  [ ("company", VStr "Acme Corp");
    ("linkedin", VStr ("https://linkedin.com/in/"
                       ++ lower (str_replace_char " " "" (name lead))));
    ("industry", VStr "Technology");
    ("location", VStr "San Francisco, CA") ].

(** [enrich_lead(lead_id)].  The [Lead] looked up is the stored object, so
    the update of its [extra] is already a write to the store; the explicit
    [LEADS[lead_id] = lead] that follows writes the same object again. *)
Definition enrich_lead (lead_id : Z) : M Lead :=
  lead <- LEADS_getitem lead_id ;;
  let enrichment := enrichment_for lead in
  let lead := set_extra (PyDict.update (extra lead) enrichment) lead in
  LEADS_setitem lead_id lead ;;;
  LEADS_setitem lead_id lead ;;;
  ret lead.

(** [score_lead(lead_id)] *)
Definition score_lead (lead_id : Z) : M Lead :=
  lead <- LEADS_getitem lead_id ;;
  let company := PyDict.get_default "company" (VStr "") (extra lead) in
  let lead :=
    if py_eq_str company "Acme Corp" && String.eqb (source lead) "web_form"
    then set_score (Some "SQL") lead
    else set_score (Some "MQL") lead in
  LEADS_setitem lead_id lead ;;;
  LEADS_setitem lead_id lead ;;;
  ret lead.

(** [route_lead(lead_id)] *)
Definition route_lead (lead_id : Z) : M Lead :=
  lead <- LEADS_getitem lead_id ;;
  reps <- read SALES_REPS ;;
  counter <- read route_counter ;;
  i <- lift (py_mod counter (Z.of_nat (List.length reps))) ;;
  rep <- lift (list_getitem reps i) ;;
  write (fun s =>
    {| LEADS := LEADS s; SALES_REPS := SALES_REPS s;
       route_counter := route_counter s + 1; stdout := stdout s |}) ;;;
  let lead := set_assigned_to (Some rep) lead in
  LEADS_setitem lead_id lead ;;;
  let lead := set_status "assigned" lead in
  LEADS_setitem lead_id lead ;;;
  print ("[Notification] Lead " ++ str_of_int lead_id ++ " assigned to "
         ++ rep_name rep ++ " (email: " ++ email lead ++ ")") ;;;
  LEADS_setitem lead_id lead ;;;
  ret lead.

(** The three local dicts of [report_performance]. *)
Record Counts : Type := mkCounts {
  by_source : PyDict.t string Z;
  by_score : PyDict.t string Z;
  by_rep : PyDict.t string Z
}.

(** [{rep["name"]: 0 for rep in reps}] *)
Definition zero_per_rep (reps : list Rep) : PyDict.t string Z :=
  fold_left (fun d rep => PyDict.set (rep_name rep) 0 d) reps [].

(** The body of the loop over [LEADS.values()].  A [Rep] is a dict with four
    keys, hence truthy, so [if lead.assigned_to] asks whether the field is
    set; the lookup of the agent's name in [by_rep] that follows is not
    guarded the way the score's is. *)
Definition count_lead (lead : Lead) (c : Counts) : Outcome Counts :=
  let src := PyDict.set (source lead)
               (PyDict.get_default (source lead) 0 (by_source c) + 1)
               (by_source c) in
  obind (match score lead with
         | Some sc => if PyDict.contains sc (by_score c)
                      then incr sc (by_score c) else Return (by_score c)
         | None => Return (by_score c)
         end) (fun sco =>
  obind (match assigned_to lead with
         | Some rep => incr (rep_name rep) (by_rep c)
         | None => Return (by_rep c)
         end) (fun rp =>
  Return (mkCounts src sco rp))).

Fixpoint count_leads (leads : list Lead) (c : Counts) : Outcome Counts :=
  match leads with
  | [] => Return c
  | lead :: rest => obind (count_lead lead c) (count_leads rest)
  end.

Record ReportData : Type := mkReportData {
  total_leads : Z;
  leads_by_source : PyDict.t string Z;
  leads_by_score : PyDict.t string Z;
  leads_by_rep : PyDict.t string Z
}.

Record Report : Type := mkReport {
  report_markdown : string;
  report_data : ReportData
}.

(** One [md += f"| {key} | {count} |\n"] per item of the dict. *)
Definition table_rows (d : PyDict.t string Z) (md : string) : string :=
  fold_left (fun md kv =>
               md ++ "| " ++ fst kv ++ " | " ++ str_of_int (snd kv) ++ " |" ++ nl)
            d md.

Definition format_report_markdown (report : ReportData) : string :=
  let md := "# DealFlow Report" ++ nl ++ nl
            ++ "**Total Leads:** " ++ str_of_int (total_leads report) ++ nl ++ nl
            ++ "## Leads by Source" ++ nl
            ++ "| Source | Count |" ++ nl
            ++ "|--------|-------|" ++ nl in
  let md := table_rows (leads_by_source report) md in
  let md := md ++ nl ++ "## Leads by Score" ++ nl
            ++ "| Score | Count |" ++ nl ++ "|-------|-------|" ++ nl in
  let md := table_rows (leads_by_score report) md in
  let md := md ++ nl ++ "## Leads by Rep" ++ nl
            ++ "| Rep | Count |" ++ nl ++ "|-----|-------|" ++ nl in
  table_rows (leads_by_rep report) md.

(** [report_performance()] *)
Definition report_performance : M Report :=
  leads <- read LEADS ;;
  let total_leads := PyDict.len leads in
  reps <- read SALES_REPS ;;
  let start := {| by_source := [];
                  by_score := [("MQL", 0); ("SQL", 0)];
                  by_rep := zero_per_rep reps |} in
  c <- lift (count_leads (PyDict.values leads) start) ;;
  let report := {| total_leads := total_leads;
                   leads_by_source := by_source c;
                   leads_by_score := by_score c;
                   leads_by_rep := by_rep c |} in
  ret {| report_markdown := format_report_markdown report;
         report_data := report |}.

(** ** Runs of the system *)

(** A call of one of the five operations. *)
Inductive Op : Type :=
| Ingest (utcnow : Z) (name email source : string)
         (extra : option (PyDict.t string PyVal))
| Enrich (lead_id : Z)
| Score (lead_id : Z)
| Route (lead_id : Z)
| ReportPerformance.

(** The state a call leaves, whether it returned or raised. *)
Definition run_op (o : Op) (s : State) : State :=
  match o with
  | Ingest t n e src x => snd (ingest_lead t n e src x s)
  | Enrich i => snd (enrich_lead i s)
  | Score i => snd (score_lead i s)
  | Route i => snd (route_lead i s)
  | ReportPerformance => snd (report_performance s)
  end.

Definition run_ops (ops : list Op) (s : State) : State :=
  fold_left (fun s o => run_op o s) ops s.

(** The states the module can be in: those some sequence of calls produces
    from the state at import. *)
Inductive reachable : State -> Prop :=
| reachable_init : reachable initial_state
| reachable_step (s : State) (o : Op) :
    reachable s -> reachable (run_op o s).

(** [route_lead] called on each id in turn; the leads as each call returned
    them. *)
Fixpoint route_all (ids : list Z) : M (list Lead) :=
  match ids with
  | [] => ret []
  | i :: rest =>
      lead <- route_lead i ;;
      leads <- route_all rest ;;
      ret (lead :: leads)
  end.

(** ** Properties stated in the specification's terms *)

(** The scoring rule as the specification words it, on the company entry of
    [extra] (if any) and the source. *)
Definition spec_score (company : option PyVal) (source : string) : string :=
  match company with
  | Some (VStr c) =>
      if String.eqb c "Acme Corp" && String.eqb source "web_form"
      then "SQL" else "MQL"
  | _ => "MQL"
  end.

(** The keys [enrich_lead] owns. *)
Definition enrichment_keys : list string :=
  ["company"; "linkedin"; "industry"; "location"].

(** [assigned_to] is set exactly when [status] is "assigned". *)
Definition assignment_consistent (l : Lead) : Prop :=
  assigned_to l <> None <-> status l = "assigned".

(** Every assigned lead names an agent of the roster. *)
Definition assigned_in_roster (s : State) : Prop :=
  forall k l r, In (k, l) (LEADS s) -> assigned_to l = Some r ->
                In r (SALES_REPS s).

(** Whether a call is [route_lead(k)]. *)
Definition is_route_of (k : Z) (o : Op) : bool :=
  match o with
  | Route i => Z.eqb i k
  | _ => false
  end.

(** The ids the [ingest_lead] calls of a run handed out, in order. *)
Fixpoint issued_ids (ops : list Op) (s : State) : list Z :=
  match ops with
  | [] => []
  | o :: rest =>
      match o with
      | Ingest t n e src x =>
          match fst (ingest_lead t n e src x s) with
          | Return lead => id lead :: issued_ids rest (run_op o s)
          | Raise _ => issued_ids rest (run_op o s)
          end
      | _ => issued_ids rest (run_op o s)
      end
  end.

(** A store holding one lead that is assigned to somebody the roster does
    not list. *)
Definition Dave : Rep := mkRep 4 "Dave" "Partners" "Left the roster".

Definition stale_assignment_state : State :=
  {| LEADS := [(1, {| id := 1; created_at := 0; name := "Jane Doe";
                      email := "jane@x.com"; source := "web_form";
                      extra := []; status := "assigned"; score := None;
                      assigned_to := Some Dave |})];
     SALES_REPS := [Alice; Bob; Carol];
     route_counter := 1;
     stdout := [] |}.

(** A short run: one lead taken through the whole pipeline, a second one
    ingested with metadata of its own and routed. *)
Definition example_ops : list Op :=
  [ Ingest 100 "Jane Doe" "jane@x.com" "web_form" None;
    Enrich 1; Score 1; Route 1;
    Ingest 101 "Bo Li" "bo@x.com" "referral" (Some [("company", VStr "Initech")]);
    Route 2; ReportPerformance ].

Definition example_state : State := run_ops example_ops initial_state.

(** Three leads taken in and nothing else done: the cursor is still 0. *)
Definition intake_state : State :=
  run_ops [ Ingest 100 "Jane Doe" "jane@x.com" "web_form" None;
            Ingest 101 "Bo Li" "bo@x.com" "referral" None;
            Ingest 102 "Cy Ng" "cy@x.com" "web_form" None ] initial_state.

(** The agents a round-robin over [reps] hands out in [n] turns when the
    cursor is [c0] before the first: turn [i] takes index
    [(c0 + i) mod len(reps)]. *)
Definition round_robin (reps : list Rep) (c0 : Z) (n : nat) : list (option Rep) :=
  map (fun i : nat =>
         nth_error reps
           (Z.to_nat ((c0 + Z.of_nat i) mod Z.of_nat (List.length reps))))
      (seq 0 n).

(** What sequential use keeps true of the state: the store's keys are
    1, 2, ..., n in insertion order, every lead sits under its own id, the
    roster is the one the module was loaded with, and every lead is either
    unassigned or assigned to an agent of the roster with status
    "assigned". *)
Definition store_ok (s : State) : Prop :=
  PyDict.keys (LEADS s) = map Z.of_nat (seq 1 (List.length (LEADS s))) /\
  (forall k l, In (k, l) (LEADS s) -> id l = k) /\
  (forall k l, In (k, l) (LEADS s) -> assignment_consistent l) /\
  assigned_in_roster s /\
  SALES_REPS s = [Alice; Bob; Carol].

(** ** The pipeline *)

(** [str(v)] as an f-string prints a value. *)
Definition str_of_val (v : PyVal) : string :=
  match v with
  | VNone => "None"
  | VBool true => "True"
  | VBool false => "False"
  | VInt z => str_of_int z
  | VStr s => s
  end.

(** What an f-string prints for [d.get(k)]: the value, or None. *)
Definition py_str (v : option PyVal) : string :=
  match v with
  | Some v => str_of_val v
  | None => "None"
  end.

(** What an f-string prints for an [Optional[str]]. *)
Definition str_of_optional (v : option string) : string :=
  match v with
  | Some s => s
  | None => "None"
  end.

(** The f-string [diagram] of [process_lead_and_report].  The text between
    the fields is the source's, byte for byte in UTF-8.  [enriched], [scored]
    and [routed] name the one stored object; [score_lead] and [route_lead]
    leave [extra] alone and [route_lead] leaves [score] alone, so the fields
    read here are the ones the three calls returned. *)
Definition process_diagram_text (name email source : string)
    (enriched scored routed : Lead) : string :=
  nl
  ++ "ðŸ“© Lead Source: "
  ++ source
  ++ nl
  ++ "        |"
  ++ nl
  ++ "        V"
  ++ nl
  ++ "ðŸ“¥ Ingest Lead ("
  ++ name
  ++ ", "
  ++ email
  ++ ", "
  ++ source
  ++ ")"
  ++ nl
  ++ "        |"
  ++ nl
  ++ "        V"
  ++ nl
  ++ "ðŸ§  Enrich Lead (company: "
  ++ py_str (PyDict.get "company" (extra enriched))
  ++ ", LinkedIn: "
  ++ py_str (PyDict.get "linkedin" (extra enriched))
  ++ ", industry: "
  ++ py_str (PyDict.get "industry" (extra enriched))
  ++ ")"
  ++ nl
  ++ "        |"
  ++ nl
  ++ "        V"
  ++ nl
  ++ "ðŸ“ˆ Score Lead â†’ "
  ++ str_of_optional (score scored)
  ++ nl
  ++ "        |"
  ++ nl
  ++ "        V"
  ++ nl
  ++ "ðŸ”„ Route to Rep â†’ "
  ++ (match assigned_to routed with Some rep => rep_name rep | None => "N/A" end)
  ++ nl
  ++ "        |"
  ++ nl
  ++ "        V"
  ++ nl
  ++ "ðŸ“Š Report â†’ Source counts, score ratios, rep assignments"
  ++ nl.

(** The dict [process_lead_and_report] returns, one field per key. *)
Record ProcessResult : Type := mkProcessResult {
  process_diagram : string;
  process_report_markdown : string;
  process_report_data : ReportData
}.

(** [process_lead_and_report(name, email, source)].  [utcnow] is the clock
    reading [ingest_lead] takes. *)
Definition process_lead_and_report (utcnow : Z) (name email source : string)
  : M ProcessResult :=
  lead <- ingest_lead utcnow name email source None ;;
  enriched <- enrich_lead (id lead) ;;
  scored <- score_lead (id lead) ;;
  routed <- route_lead (id lead) ;;
  report <- report_performance ;;
  let diagram := process_diagram_text name email source enriched scored routed in
  ret {| process_diagram := diagram;
         process_report_markdown := report_markdown report;
         process_report_data := report_data report |}.

(** ** Counting leads *)

(** How many of [leads] satisfy [p]. *)
Definition count_by (p : Lead -> bool) (leads : list Lead) : Z :=
  Z.of_nat (List.length (filter p leads)).

Definition has_source (k : string) (l : Lead) : bool :=
  String.eqb (source l) k.

Definition has_score (k : string) (l : Lead) : bool :=
  match score l with
  | Some sc => String.eqb sc k
  | None => false
  end.

(** The lead is assigned to an agent whose name is [k]. *)
Definition assigned_name (k : string) (l : Lead) : bool :=
  match assigned_to l with
  | Some rep => String.eqb (rep_name rep) k
  | None => false
  end.

Definition is_assigned (l : Lead) : bool :=
  match assigned_to l with
  | Some _ => true
  | None => false
  end.

Definition rep_eqb (a b : Rep) : bool :=
  Z.eqb (rep_id a) (rep_id b) && String.eqb (rep_name a) (rep_name b)
  && String.eqb (rep_specialty a) (rep_specialty b)
  && String.eqb (rep_comment a) (rep_comment b).

(** The lead is assigned to the agent [r]. *)
Definition assigned_rep (r : Rep) (l : Lead) : bool :=
  match assigned_to l with
  | Some rep => rep_eqb rep r
  | None => false
  end.

(** The [ingest_lead] calls of a run. *)
Definition ingest_calls (ops : list Op) : nat :=
  List.length (filter (fun o => match o with
                                | Ingest _ _ _ _ _ => true
                                | _ => false
                                end) ops).

(** One row of a table of the report document. *)
Definition table_row (kv : string * Z) : string :=
  "| " ++ fst kv ++ " | " ++ str_of_int (snd kv) ++ " |" ++ nl.

(** How many of the ids [ids] the store maps to a lead assigned to [r]. *)
Definition stored_with_rep (r : Rep) (s : State) (ids : list Z) : Z :=
  Z.of_nat (List.length
              (filter (fun lead_id : Z =>
                         match PyDict.get lead_id (LEADS s) with
                         | Some l => assigned_rep r l
                         | None => false
                         end) ids)).

(** Of [n] turns of a round-robin over [m] agents that starts with the
    cursor at [c], how many fall on index [j]. *)
Definition turns_at (m c j : Z) (n : nat) : Z :=
  Z.of_nat (List.length
              (filter (fun i : nat => (c + Z.of_nat i) mod m =? j) (seq 0 n))).

(** [l'] is [l] some calls later: the fields set at ingestion are the same,
    no key of [extra] is gone, and a score, once set, is still set. *)
Definition lead_kept (l l' : Lead) : Prop :=
  id l' = id l /\ created_at l' = created_at l /\ name l' = name l /\
  email l' = email l /\ source l' = source l /\
  (forall key : string, PyDict.get key (extra l) <> None ->
                        PyDict.get key (extra l') <> None) /\
  (score l <> None -> score l' <> None).

(** * Lemmas *)

(** ** Dicts *)

Lemma keq_Z_spec (a b : Z) : keq a b = true <-> a = b.
Proof. apply Z.eqb_eq. Qed.

Lemma keq_string_spec (a b : string) : keq a b = true <-> a = b.
Proof. apply String.eqb_eq. Qed.

Section DictFacts.
Context {K V : Type} `{KeyEq K}.
Hypothesis keq_spec : forall a b : K, keq a b = true <-> a = b.

Lemma keq_refl (k : K) : keq k k = true.
Proof. now apply keq_spec. Qed.

Lemma keq_neq (a b : K) : a <> b -> keq a b = false.
Proof.
  intro Hne. destruct (keq a b) eqn:E; [|reflexivity].
  apply keq_spec in E. contradiction.
Qed.

Lemma get_set_same (k : K) (v : V) (d : PyDict.t K V) :
  PyDict.get k (PyDict.set k v d) = Some v.
Proof.
  induction d as [|[k' v'] rest IH]; simpl.
  - now rewrite keq_refl.
  - destruct (keq k k') eqn:E; simpl; rewrite E; [reflexivity | exact IH].
Qed.

Lemma get_set_other (k k' : K) (v : V) (d : PyDict.t K V) :
  k <> k' -> PyDict.get k' (PyDict.set k v d) = PyDict.get k' d.
Proof.
  intro Hne. induction d as [|[k0 v0] rest IH]; simpl.
  - rewrite keq_neq; [reflexivity | congruence].
  - destruct (keq k k0) eqn:E; simpl.
    + apply keq_spec in E. subst k0. rewrite keq_neq; [reflexivity | congruence].
    + now rewrite IH.
Qed.

Lemma set_fresh (k : K) (v : V) (d : PyDict.t K V) :
  PyDict.get k d = None -> PyDict.set k v d = (d ++ [(k, v)])%list.
Proof.
  induction d as [|[k' v'] rest IH]; simpl; [reflexivity|].
  destruct (keq k k'); [discriminate|].
  intro Hn. now rewrite IH.
Qed.

Lemma set_present_keys (k : K) (v v0 : V) (d : PyDict.t K V) :
  PyDict.get k d = Some v0 ->
  PyDict.keys (PyDict.set k v d) = PyDict.keys d.
Proof.
  unfold PyDict.keys.
  induction d as [|[k' v'] rest IH]; simpl; [discriminate|].
  destruct (keq k k'); simpl; [reflexivity|].
  intro Hg. now rewrite IH.
Qed.

Lemma set_present_length (k : K) (v v0 : V) (d : PyDict.t K V) :
  PyDict.get k d = Some v0 ->
  List.length (PyDict.set k v d) = List.length d.
Proof.
  intro Hg. apply (set_present_keys k v) in Hg.
  unfold PyDict.keys in Hg.
  now rewrite <- (length_map fst), Hg, length_map.
Qed.

Lemma set_set (k : K) (v1 v2 : V) (d : PyDict.t K V) :
  PyDict.set k v2 (PyDict.set k v1 d) = PyDict.set k v2 d.
Proof.
  induction d as [|[k' v'] rest IH]; simpl.
  - now rewrite keq_refl.
  - destruct (keq k k') eqn:E; simpl; rewrite E; [reflexivity | now rewrite IH].
Qed.

Lemma set_same_value (k : K) (v : V) (d : PyDict.t K V) :
  PyDict.get k d = Some v -> PyDict.set k v d = d.
Proof.
  induction d as [|[k' v'] rest IH]; simpl; [discriminate|].
  destruct (keq k k') eqn:E.
  - intro Hs. now inversion Hs.
  - intro Hg. now rewrite IH.
Qed.

Lemma get_In (k : K) (v : V) (d : PyDict.t K V) :
  PyDict.get k d = Some v -> In (k, v) d.
Proof.
  induction d as [|[k' v'] rest IH]; simpl; [discriminate|].
  destruct (keq k k') eqn:E.
  - apply keq_spec in E. subst k'. intro Hs. inversion Hs. now left.
  - intro Hg. right. now apply IH.
Qed.

Lemma get_None_keys (k : K) (d : PyDict.t K V) :
  PyDict.get k d = None <-> ~ In k (PyDict.keys d).
Proof.
  induction d as [|[k' v'] rest IH]; simpl.
  - split; [intros _ [] | reflexivity].
  - destruct (keq k k') eqn:E.
    + apply keq_spec in E. subst k'. split; [discriminate|].
      intro Hn. exfalso. apply Hn. now left.
    + rewrite IH. split.
      * intros Hn [Heq|Hin]; [|tauto].
        subst k'. rewrite keq_refl in E. discriminate.
      * tauto.
Qed.

(** What [d[k] = v] leaves in the dict: old entries, or the new one. *)
Lemma In_set (k k' : K) (v v' : V) (d : PyDict.t K V) :
  In (k', v') (PyDict.set k v d) ->
  In (k', v') d \/ (k' = k /\ v' = v).
Proof.
  induction d as [|[k0 v0] rest IH]; simpl.
  - intros [Heq|[]]. inversion Heq. now right.
  - destruct (keq k k0) eqn:E; simpl.
    + apply keq_spec in E. subst k0.
      intros [Heq|Hin]; [inversion Heq; now right | left; now right].
    + intros [Heq|Hin]; [left; now left|].
      destruct (IH Hin) as [Hold|Hnew]; [left; now right | now right].
Qed.
End DictFacts.

(** ** What each operation computes *)

Ltac unfold_op :=
  unfold enrich_lead, score_lead, route_lead, ingest_lead, report_performance,
    LEADS_getitem, LEADS_setitem, print, bind, read, write, ret, raise, lift.

Lemma enrich_lead_missing (s : State) (lead_id : Z) :
  PyDict.get lead_id (LEADS s) = None ->
  enrich_lead lead_id s = (Raise (KeyError (VInt lead_id)), s).
Proof. intro Hg. unfold_op. now rewrite Hg. Qed.

Lemma score_lead_missing (s : State) (lead_id : Z) :
  PyDict.get lead_id (LEADS s) = None ->
  score_lead lead_id s = (Raise (KeyError (VInt lead_id)), s).
Proof. intro Hg. unfold_op. now rewrite Hg. Qed.

Lemma route_lead_missing (s : State) (lead_id : Z) :
  PyDict.get lead_id (LEADS s) = None ->
  route_lead lead_id s = (Raise (KeyError (VInt lead_id)), s).
Proof. intro Hg. unfold_op. now rewrite Hg. Qed.

Lemma enrich_lead_present (s : State) (lead_id : Z) (lead : Lead) :
  PyDict.get lead_id (LEADS s) = Some lead ->
  let lead' :=
    set_extra (PyDict.update (extra lead) (enrichment_for lead)) lead in
  enrich_lead lead_id s =
    (Return lead',
     {| LEADS := PyDict.set lead_id lead' (LEADS s);
        SALES_REPS := SALES_REPS s;
        route_counter := route_counter s;
        stdout := stdout s |}).
Proof.
  intro Hg. unfold_op. rewrite Hg. simpl.
  now rewrite (set_set keq_Z_spec).
Qed.

Lemma score_lead_present (s : State) (lead_id : Z) (lead : Lead) :
  PyDict.get lead_id (LEADS s) = Some lead ->
  let company := PyDict.get_default "company" (VStr "") (extra lead) in
  let lead' :=
    set_score
      (Some (if py_eq_str company "Acme Corp"
                && String.eqb (source lead) "web_form"
             then "SQL" else "MQL")) lead in
  score_lead lead_id s =
    (Return lead',
     {| LEADS := PyDict.set lead_id lead' (LEADS s);
        SALES_REPS := SALES_REPS s;
        route_counter := route_counter s;
        stdout := stdout s |}).
Proof.
  intro Hg. unfold_op. rewrite Hg. simpl.
  rewrite (set_set keq_Z_spec).
  now destruct (py_eq_str _ _ && _)%bool.
Qed.

Lemma list_getitem_mod {A : Type} (l : list A) (c : Z) :
  l <> [] ->
  exists a,
    nth_error l (Z.to_nat (c mod Z.of_nat (List.length l))) = Some a /\
    list_getitem l (c mod Z.of_nat (List.length l)) = Return a.
Proof.
  intro Hne.
  assert (Hlen : 0 < Z.of_nat (List.length l)) by (destruct l; [congruence | simpl; lia]).
  pose proof (Z.mod_pos_bound c _ Hlen) as [Hlo Hhi].
  unfold list_getitem.
  destruct (Z.ltb_spec (c mod Z.of_nat (List.length l)) 0) as [Hneg|_]; [lia|].
  destruct (Z.leb_spec 0 (c mod Z.of_nat (List.length l))) as [_|Hneg]; [|lia].
  destruct (Z.ltb_spec (c mod Z.of_nat (List.length l)) (Z.of_nat (List.length l)))
    as [_|Hbig]; [|lia].
  simpl.
  destruct (nth_error l (Z.to_nat (c mod Z.of_nat (List.length l)))) as [a|] eqn:E.
  - now exists a.
  - apply nth_error_None in E. lia.
Qed.

Lemma route_lead_present (s : State) (lead_id : Z) (lead : Lead) :
  PyDict.get lead_id (LEADS s) = Some lead ->
  SALES_REPS s <> [] ->
  exists rep,
    nth_error (SALES_REPS s)
      (Z.to_nat (route_counter s mod Z.of_nat (List.length (SALES_REPS s))))
      = Some rep /\
    let lead' := set_status "assigned" (set_assigned_to (Some rep) lead) in
    route_lead lead_id s =
      (Return lead',
       {| LEADS := PyDict.set lead_id lead' (LEADS s);
          SALES_REPS := SALES_REPS s;
          route_counter := route_counter s + 1;
          stdout := (stdout s ++
                     [("[Notification] Lead " ++ str_of_int lead_id
                       ++ " assigned to " ++ rep_name rep
                       ++ " (email: " ++ email lead ++ ")")%string])%list |}).
Proof.
  intros Hg Hne.
  destruct (list_getitem_mod (SALES_REPS s) (route_counter s) Hne)
    as [rep [Hnth Hget]].
  exists rep. split; [exact Hnth|].
  unfold_op. rewrite Hg. simpl. unfold py_mod.
  destruct (Z.eqb_spec (Z.of_nat (List.length (SALES_REPS s))) 0) as [Hz|_].
  - destruct (SALES_REPS s); [congruence | simpl in Hz; lia].
  - rewrite Hget. simpl. now rewrite !(set_set keq_Z_spec).
Qed.

Lemma route_lead_empty_roster (s : State) (lead_id : Z) (lead : Lead) :
  PyDict.get lead_id (LEADS s) = Some lead ->
  SALES_REPS s = [] ->
  route_lead lead_id s = (Raise ZeroDivisionError, s).
Proof.
  intros Hg He. unfold_op. rewrite Hg, He. reflexivity.
Qed.

Lemma ingest_lead_eq (s : State) (t : Z) (n e src : string)
    (x : option (PyDict.t string PyVal)) :
  let lid := PyDict.len (LEADS s) + 1 in
  let lead := mkLead lid t n e src (extra_or_empty x) "new" None None in
  ingest_lead t n e src x s =
    (Return lead,
     {| LEADS := PyDict.set lid lead (LEADS s);
        SALES_REPS := SALES_REPS s;
        route_counter := route_counter s;
        stdout := stdout s |}).
Proof. reflexivity. Qed.

Lemma report_performance_state (s : State) : snd (report_performance s) = s.
Proof.
  unfold_op.
  now destruct (count_leads _ _).
Qed.

Lemma route_lead_counter (s : State) (lead_id : Z) :
  route_counter (snd (route_lead lead_id s)) =
  if succeeded (fst (route_lead lead_id s))
  then route_counter s + 1 else route_counter s.
Proof.
  destruct (PyDict.get lead_id (LEADS s)) as [lead|] eqn:Hg.
  - destruct (SALES_REPS s) as [|r reps] eqn:Hr.
    + now rewrite (route_lead_empty_roster s lead_id lead Hg Hr).
    + assert (Hne : SALES_REPS s <> []) by (rewrite Hr; discriminate).
      destruct (route_lead_present s lead_id lead Hg Hne) as [rep [_ Heq]].
      now rewrite Heq.
  - now rewrite (route_lead_missing s lead_id Hg).
Qed.

(** Roster and cursor across one call: only a [route_lead] that returns
    moves the cursor, and nothing touches the roster. *)
Lemma run_op_globals (o : Op) (s : State) :
  SALES_REPS (run_op o s) = SALES_REPS s /\
  route_counter (run_op o s) =
    match o with
    | Route i => if succeeded (fst (route_lead i s))
                 then route_counter s + 1 else route_counter s
    | _ => route_counter s
    end.
Proof.
  destruct o as [t n e src x|i|i|i|]; unfold run_op.
  - now rewrite ingest_lead_eq.
  - destruct (PyDict.get i (LEADS s)) as [lead|] eqn:Hg.
    + now rewrite (enrich_lead_present s i lead Hg).
    + now rewrite (enrich_lead_missing s i Hg).
  - destruct (PyDict.get i (LEADS s)) as [lead|] eqn:Hg.
    + now rewrite (score_lead_present s i lead Hg).
    + now rewrite (score_lead_missing s i Hg).
  - split; [|apply route_lead_counter].
    destruct (PyDict.get i (LEADS s)) as [lead|] eqn:Hg.
    + destruct (SALES_REPS s) as [|r reps] eqn:Hr.
      * rewrite (route_lead_empty_roster s i lead Hg Hr). now simpl.
      * assert (Hne : SALES_REPS s <> []) by (rewrite Hr; discriminate).
        destruct (route_lead_present s i lead Hg Hne) as [rep [_ Heq]].
        rewrite Heq. now simpl.
    + now rewrite (route_lead_missing s i Hg).
  - now rewrite report_performance_state.
Qed.

Lemma run_op_counter_le (o : Op) (s : State) :
  route_counter s <= route_counter (run_op o s).
Proof.
  destruct (run_op_globals o s) as [_ Hc]. rewrite Hc.
  destruct o; try lia.
  destruct (succeeded _); lia.
Qed.

(** ** Failing on an absent lead *)

(** C1: for a lead id that is not a key of the store, [enrich_lead],
    [score_lead] and [route_lead] each raise [KeyError] for that id (the
    module's not-found failure, told apart from every other exception) and
    leave the whole state, the store included, exactly as it was. *)
Theorem absent_lead_raises_KeyError (s : State) (lead_id : Z) :
  PyDict.get lead_id (LEADS s) = None ->
  enrich_lead lead_id s = (Raise (KeyError (VInt lead_id)), s) /\
  score_lead lead_id s = (Raise (KeyError (VInt lead_id)), s) /\
  route_lead lead_id s = (Raise (KeyError (VInt lead_id)), s).
Proof.
  intro Hg. repeat split.
  - now apply enrich_lead_missing.
  - now apply score_lead_missing.
  - now apply route_lead_missing.
Qed.

(** ** The assignment cursor *)

(** C3, as the claim has it, fails: a [route_lead] call on an id the store
    does not hold raises before the cursor is touched, so the cursor is not
    one more than before. *)
Lemma route_counter_kept_on_absent_lead :
  fst (route_lead 1 initial_state) = Raise (KeyError (VInt 1)) /\
  route_counter (snd (route_lead 1 initial_state)) = 0 /\
  route_counter (snd (route_lead 1 initial_state))
    <> route_counter initial_state + 1.
Proof.
  repeat split. vm_compute. discriminate.
Qed.

(** C3, amended: the cursor starts at 0; a [route_lead] call adds exactly 1
    to it when it returns and leaves it as it was when it raises; every
    other operation leaves it unchanged, so no run ever lowers or resets
    it. *)
Theorem route_counter_advances_on_success :
  route_counter initial_state = 0 /\
  (forall (s : State) (lead_id : Z),
      route_counter (snd (route_lead lead_id s)) =
      if succeeded (fst (route_lead lead_id s))
      then route_counter s + 1 else route_counter s) /\
  (forall (s : State) (o : Op),
      route_counter (run_op o s) =
      match o with
      | Route i => route_counter (snd (route_lead i s))
      | _ => route_counter s
      end) /\
  (forall (ops : list Op) (s : State),
      route_counter s <= route_counter (run_ops ops s)).
Proof.
  split; [reflexivity|]. split; [apply route_lead_counter|]. split.
  - intros s o. destruct (run_op_globals o s) as [_ Hc].
    destruct o; try exact Hc. reflexivity.
  - intros ops. unfold run_ops.
    induction ops as [|o rest IH]; intro s; simpl; [lia|].
    pose proof (run_op_counter_le o s). specialize (IH (run_op o s)). lia.
Qed.

(** ** Reporting reads only *)

(** C10: [report_performance] writes nothing: after a call the store, the
    roster, the cursor (and the printed output) are what they were, whether
    it returned or raised; so a second call right after the first gives the
    same outcome, report document and counts alike. *)
Theorem report_performance_pure_read (s : State) :
  LEADS (snd (report_performance s)) = LEADS s /\
  SALES_REPS (snd (report_performance s)) = SALES_REPS s /\
  route_counter (snd (report_performance s)) = route_counter s /\
  snd (report_performance s) = s /\
  fst (report_performance (snd (report_performance s)))
    = fst (report_performance s).
Proof.
  now rewrite report_performance_state.
Qed.

(** ** Scoring *)

Lemma score_rule_spec (e : PyDict.t string PyVal) (src : string) :
  (if py_eq_str (PyDict.get_default "company" (VStr "") e) "Acme Corp"
      && String.eqb src "web_form"
   then "SQL" else "MQL")
  = spec_score (PyDict.get "company" e) src.
Proof.
  unfold PyDict.get_default, spec_score.
  destruct (PyDict.get "company" e) as [[| b | z | c]|]; reflexivity.
Qed.

Lemma spec_score_SQL (company : option PyVal) (src : string) :
  spec_score company src = "SQL" <->
  company = Some (VStr "Acme Corp") /\ src = "web_form".
Proof.
  unfold spec_score. split.
  - destruct company as [[| b | z | c]|]; try discriminate.
    destruct (String.eqb_spec c "Acme Corp") as [Hc|Hc]; simpl; [|discriminate].
    destruct (String.eqb_spec src "web_form") as [Hs|Hs]; [|discriminate].
    intros _. now subst.
  - intros [Hc Hs]. subst. reflexivity.
Qed.

Lemma spec_score_values (company : option PyVal) (src : string) :
  spec_score company src = "SQL" \/ spec_score company src = "MQL".
Proof.
  unfold spec_score.
  destruct company as [[| b | z | c]|]; auto.
  destruct (_ && _)%bool; auto.
Qed.

(** C7: on a lead the store holds, [score_lead] always returns, and the
    score it stores and returns is the specification's rule applied to the
    company entry of [extra] and the source: "SQL" exactly when the company
    is the string "Acme Corp" and the source is "web_form", "MQL" in every
    other case (no company entry included); it is never left unset. *)
Theorem score_lead_total (s : State) (lead_id : Z) (lead : Lead) :
  PyDict.get lead_id (LEADS s) = Some lead ->
  exists (lead' : Lead) (s' : State),
    score_lead lead_id s = (Return lead', s') /\
    PyDict.get lead_id (LEADS s') = Some lead' /\
    score lead' =
      Some (spec_score (PyDict.get "company" (extra lead)) (source lead)) /\
    (score lead' = Some "SQL" <->
       PyDict.get "company" (extra lead) = Some (VStr "Acme Corp")
       /\ source lead = "web_form") /\
    (score lead' = Some "SQL" \/ score lead' = Some "MQL").
Proof.
  intro Hg.
  pose proof (score_lead_present s lead_id lead Hg) as Heq. simpl in Heq.
  rewrite score_rule_spec in Heq.
  eexists. eexists. split; [exact Heq|]. simpl.
  split; [apply (get_set_same keq_Z_spec)|].
  split; [reflexivity|]. split.
  - rewrite <- spec_score_SQL. split; [now intros [= ->] | now intros ->].
  - destruct (spec_score_values (PyDict.get "company" (extra lead)) (source lead))
      as [-> | ->]; auto.
Qed.

(** ** Enrichment *)

Ltac dict_get :=
  repeat first
    [ rewrite (get_set_same keq_string_spec)
    | rewrite (get_set_other keq_string_spec) by congruence ].

Lemma update_enrichment (lead : Lead) (d : PyDict.t string PyVal) :
  PyDict.update d (enrichment_for lead) =
  PyDict.set "location" (VStr "San Francisco, CA")
    (PyDict.set "industry" (VStr "Technology")
      (PyDict.set "linkedin"
         (VStr ("https://linkedin.com/in/"
                ++ lower (str_replace_char " " "" (name lead))))
        (PyDict.set "company" (VStr "Acme Corp") d))).
Proof. reflexivity. Qed.

Lemma update_enrichment_get (lead : Lead) (d : PyDict.t string PyVal) :
  let d' := PyDict.update d (enrichment_for lead) in
  PyDict.get "company" d' = Some (VStr "Acme Corp") /\
  PyDict.get "linkedin" d' =
    Some (VStr ("https://linkedin.com/in/"
                ++ lower (str_replace_char " " "" (name lead)))) /\
  PyDict.get "industry" d' = Some (VStr "Technology") /\
  PyDict.get "location" d' = Some (VStr "San Francisco, CA").
Proof.
  cbv zeta. rewrite update_enrichment. repeat split; now dict_get.
Qed.

Lemma update_enrichment_other (lead : Lead) (d : PyDict.t string PyVal)
    (k : string) :
  ~ In k enrichment_keys ->
  PyDict.get k (PyDict.update d (enrichment_for lead)) = PyDict.get k d.
Proof.
  intro Hk. rewrite update_enrichment.
  assert (Hne : "company" <> k /\ "linkedin" <> k /\ "industry" <> k
                /\ "location" <> k).
  { unfold enrichment_keys in Hk. simpl in Hk. tauto. }
  destruct Hne as [H1 [H2 [H3 H4]]].
  now rewrite !(get_set_other keq_string_spec) by assumption.
Qed.

Lemma update_enrichment_twice (lead : Lead) (d : PyDict.t string PyVal) :
  PyDict.update (PyDict.update d (enrichment_for lead)) (enrichment_for lead)
  = PyDict.update d (enrichment_for lead).
Proof.
  pose proof (update_enrichment_get lead d) as Hall. cbv zeta in Hall.
  destruct Hall as [Hc [Hl [Hi Ho]]].
  rewrite (update_enrichment lead (PyDict.update d (enrichment_for lead))).
  rewrite (set_same_value _ _ _ Hc).
  rewrite (set_same_value _ _ _ Hl).
  rewrite (set_same_value _ _ _ Hi).
  now rewrite (set_same_value _ _ _ Ho).
Qed.

Lemma str_replace_char_absent (old : ascii) (s : string) :
  ~ In old (list_ascii_of_string (str_replace_char old "" s)).
Proof.
  induction s as [|c rest IH]; simpl; [tauto|].
  destruct (Ascii.eqb_spec c old) as [Heq|Hne]; simpl; [exact IH|].
  intros [Hc|Hin]; [congruence | contradiction].
Qed.

Lemma enrich_twice_lead (lead : Lead) :
  let lead1 :=
    set_extra (PyDict.update (extra lead) (enrichment_for lead)) lead in
  set_extra (PyDict.update (extra lead1) (enrichment_for lead1)) lead1 = lead1.
Proof.
  cbv zeta. unfold set_extra. cbn [id created_at name email source extra
                                   status score assigned_to].
  change (enrichment_for (mkLead _ _ (name lead) _ _ _ _ _ _))
    with (enrichment_for lead).
  now rewrite update_enrichment_twice.
Qed.

(** C8: on a lead the store holds, [enrich_lead] returns the lead it has
    written to the store under that id, every other entry of the store
    being left as it was; calling it again right away returns the same lead
    and leaves the same state, so the values under its four keys are the
    same after two calls as after one.  Keys of [extra] other than
    "company", "linkedin", "industry" and "location" keep their values and
    no key is removed; the four keys get the enrichment's values whatever
    they held before; and the "linkedin" value is the fixed prefix followed
    by [str.lower] of the lead's name with its spaces removed (what is
    lower-cased holds no space). *)
Theorem enrich_lead_idempotent (s : State) (lead_id : Z) (lead : Lead) :
  PyDict.get lead_id (LEADS s) = Some lead ->
  exists (lead1 : Lead) (s1 : State),
    enrich_lead lead_id s = (Return lead1, s1) /\
    PyDict.get lead_id (LEADS s1) = Some lead1 /\
    (forall k : Z, k <> lead_id ->
        PyDict.get k (LEADS s1) = PyDict.get k (LEADS s)) /\
    enrich_lead lead_id s1 = (Return lead1, s1) /\
    (forall k : string, ~ In k enrichment_keys ->
        PyDict.get k (extra lead1) = PyDict.get k (extra lead)) /\
    (forall k : string, PyDict.get k (extra lead) <> None ->
        PyDict.get k (extra lead1) <> None) /\
    PyDict.get "company" (extra lead1) = Some (VStr "Acme Corp") /\
    PyDict.get "linkedin" (extra lead1) =
      Some (VStr ("https://linkedin.com/in/"
                  ++ lower (str_replace_char " " "" (name lead)))) /\
    PyDict.get "industry" (extra lead1) = Some (VStr "Technology") /\
    PyDict.get "location" (extra lead1) = Some (VStr "San Francisco, CA") /\
    ~ In " "%char
        (list_ascii_of_string (str_replace_char " " "" (name lead))).
Proof.
  intro Hg.
  pose proof (enrich_lead_present s lead_id lead Hg) as Hrun.
  cbv zeta in Hrun.
  set (lead1 := set_extra (PyDict.update (extra lead) (enrichment_for lead)) lead)
    in *.
  set (s1 := {| LEADS := PyDict.set lead_id lead1 (LEADS s);
                SALES_REPS := SALES_REPS s;
                route_counter := route_counter s;
                stdout := stdout s |}) in *.
  pose proof (update_enrichment_get lead (extra lead)) as Hown.
  cbv zeta in Hown. destruct Hown as [Hc [Hl [Hi Ho]]].
  assert (Hg1 : PyDict.get lead_id (LEADS s1) = Some lead1)
    by apply (get_set_same keq_Z_spec).
  exists lead1, s1. split; [exact Hrun|]. split; [exact Hg1|]. split.
  { intros k Hk. unfold s1. cbn [LEADS].
    apply (get_set_other keq_Z_spec). congruence. }
  split.
  - rewrite (enrich_lead_present s1 lead_id lead1 Hg1).
    assert (Hfix : set_extra (PyDict.update (extra lead1) (enrichment_for lead1))
                     lead1 = lead1).
    { unfold lead1. apply enrich_twice_lead. }
    rewrite Hfix. unfold s1. simpl.
    now rewrite (set_set keq_Z_spec).
  - split; [intros k Hk; now apply update_enrichment_other|].
    split.
    + intros k Hsome.
      change (extra lead1)
        with (PyDict.update (extra lead) (enrichment_for lead)).
      destruct (in_dec string_dec k enrichment_keys) as [Hin|Hout].
      * simpl in Hin.
        destruct Hin as [<-|[<-|[<-|[<-|[]]]]]; congruence.
      * now rewrite update_enrichment_other.
    + repeat split; try assumption.
      apply str_replace_char_absent.
Qed.

(** ** Round-robin routing *)

Lemma nil_or_not {A : Type} (l : list A) : l = [] \/ l <> [].
Proof. destruct l; [now left | right; discriminate]. Qed.

Lemma route_lead_returns (s s' : State) (lead_id : Z) (lead' : Lead) :
  route_lead lead_id s = (Return lead', s') ->
  SALES_REPS s' = SALES_REPS s /\
  route_counter s' = route_counter s + 1 /\
  assigned_to lead' <> None /\
  assigned_to lead' =
    nth_error (SALES_REPS s)
      (Z.to_nat (route_counter s mod Z.of_nat (List.length (SALES_REPS s)))) /\
  status lead' = "assigned" /\
  PyDict.get lead_id (LEADS s') = Some lead'.
Proof.
  intro Hrun.
  destruct (PyDict.get lead_id (LEADS s)) as [lead|] eqn:Hg.
  - destruct (nil_or_not (SALES_REPS s)) as [Hr|Hne].
    + rewrite (route_lead_empty_roster s lead_id lead Hg Hr) in Hrun.
      discriminate.
    + destruct (route_lead_present s lead_id lead Hg Hne) as [rep [Hnth Heq]].
      cbv zeta in Heq. rewrite Heq in Hrun.
      inversion Hrun; subst lead' s'; clear Hrun. simpl.
      split; [reflexivity|]. split; [reflexivity|].
      split; [discriminate|]. split; [now rewrite Hnth|].
      split; [reflexivity|]. apply (get_set_same keq_Z_spec).
  - rewrite (route_lead_missing s lead_id Hg) in Hrun. discriminate.
Qed.

Lemma round_robin_S (reps : list Rep) (c0 : Z) (n : nat) :
  round_robin reps c0 (S n) =
  nth_error reps (Z.to_nat (c0 mod Z.of_nat (List.length reps)))
  :: round_robin reps (c0 + 1) n.
Proof.
  unfold round_robin. cbn [seq map]. rewrite <- seq_shift, map_map.
  change (Z.of_nat 0) with 0. rewrite Z.add_0_r. f_equal.
  apply map_ext. intro i. do 3 f_equal. lia.
Qed.

Lemma route_all_returns (ids : list Z) :
  forall (s s' : State) (leads : list Lead),
    route_all ids s = (Return leads, s') ->
    SALES_REPS s' = SALES_REPS s /\
    route_counter s' = route_counter s + Z.of_nat (List.length ids) /\
    map assigned_to leads
      = round_robin (SALES_REPS s) (route_counter s) (List.length ids) /\
    Forall (fun l => assigned_to l <> None /\ status l = "assigned") leads.
Proof.
  induction ids as [|i rest IH]; intros s s' leads Hrun.
  - inversion Hrun; subst. simpl. repeat split; [lia | constructor].
  - simpl in Hrun. unfold bind at 1 in Hrun.
    destruct (route_lead i s) as [[lead|e] s1] eqn:Hone; [|discriminate].
    unfold bind at 1 in Hrun.
    destruct (route_all rest s1) as [[ls|e] s2] eqn:Hrest; [|discriminate].
    inversion Hrun; subst leads s'; clear Hrun.
    destruct (route_lead_returns _ _ _ _ Hone) as [Hr [Hc [Hset [Hrep [Hst _]]]]].
    destruct (IH _ _ _ Hrest) as [Hr' [Hc' [Hmap Hall]]].
    rewrite Hr, Hc in *.
    repeat split.
    + exact Hr'.
    + rewrite Hc'. simpl List.length. lia.
    + simpl List.length. rewrite round_robin_S. simpl map.
      now rewrite Hrep, Hmap.
    + constructor; [now split | exact Hall].
Qed.

(** A batch of calls on leads the store holds, with a roster that is not
    empty, goes through. *)
Lemma route_all_succeeds (ids : list Z) :
  forall s : State,
    SALES_REPS s <> [] ->
    (forall i, In i ids -> PyDict.get i (LEADS s) <> None) ->
    exists (leads : list Lead) (s' : State),
      route_all ids s = (Return leads, s').
Proof.
  induction ids as [|i rest IH]; intros s Hne Hall.
  - now exists [], s.
  - destruct (PyDict.get i (LEADS s)) as [lead|] eqn:Hg;
      [|exfalso; apply (Hall i); [now left | exact Hg]].
    destruct (route_lead_present s i lead Hg Hne) as [rep [_ Hone]].
    cbv zeta in Hone.
    set (lead' := set_status "assigned" (set_assigned_to (Some rep) lead)) in *.
    match type of Hone with _ = (_, ?st) => set (s1 := st) in * end.
    destruct (IH s1) as [ls [s2 Hrest]].
    + exact Hne.
    + intros j Hj. simpl.
      destruct (Z.eq_dec i j) as [<-|Hij].
      * rewrite (get_set_same keq_Z_spec). discriminate.
      * rewrite (get_set_other keq_Z_spec) by exact Hij.
        apply Hall. now right.
    + exists (lead' :: ls), s2. simpl. unfold bind at 1. rewrite Hone.
      unfold bind at 1. now rewrite Hrest.
Qed.

Lemma route_all_cons (i : Z) (rest : list Z) (s s' : State)
    (leads : list Lead) :
  route_all (i :: rest) s = (Return leads, s') ->
  exists (l : Lead) (s1 : State) (ls : list Lead),
    route_lead i s = (Return l, s1) /\
    route_all rest s1 = (Return ls, s') /\
    leads = l :: ls.
Proof.
  intro Hrun. simpl in Hrun. unfold bind at 1 in Hrun.
  destruct (route_lead i s) as [[l|e] s1] eqn:Hone; [|discriminate].
  unfold bind at 1 in Hrun.
  destruct (route_all rest s1) as [[ls|e] s2] eqn:Hrest; [|discriminate].
  inversion Hrun; subst. now exists l, s1, ls.
Qed.

Lemma route_all_cons_eq (i : Z) (rest : list Z) (s s1 s' : State)
    (l : Lead) (ls : list Lead) :
  route_lead i s = (Return l, s1) ->
  route_all rest s1 = (Return ls, s') ->
  route_all (i :: rest) s = (Return (l :: ls), s').
Proof.
  intros Hone Hrest.
  change (route_all (i :: rest))
    with (bind (route_lead i)
            (fun lead => bind (route_all rest)
                           (fun leads => ret (lead :: leads)))).
  unfold bind. now rewrite Hone, Hrest.
Qed.

(** A call that returns writes to the store under its own id only. *)
Lemma route_lead_other (s s' : State) (lead_id : Z) (lead' : Lead) :
  route_lead lead_id s = (Return lead', s') ->
  forall k : Z, k <> lead_id ->
    PyDict.get k (LEADS s') = PyDict.get k (LEADS s).
Proof.
  intros Hrun k Hk.
  destruct (PyDict.get lead_id (LEADS s)) as [lead|] eqn:Hg.
  - destruct (nil_or_not (SALES_REPS s)) as [Hr|Hne].
    + rewrite (route_lead_empty_roster s lead_id lead Hg Hr) in Hrun.
      discriminate.
    + destruct (route_lead_present s lead_id lead Hg Hne) as [rep [_ Heq]].
      cbv zeta in Heq. rewrite Heq in Hrun.
      inversion Hrun; subst lead' s'. cbn [LEADS].
      apply (get_set_other keq_Z_spec). congruence.
  - rewrite (route_lead_missing s lead_id Hg) in Hrun. discriminate.
Qed.

Lemma route_all_other (ids : list Z) :
  forall (s s' : State) (leads : list Lead),
    route_all ids s = (Return leads, s') ->
    forall k : Z, ~ In k ids ->
      PyDict.get k (LEADS s') = PyDict.get k (LEADS s).
Proof.
  induction ids as [|i rest IH]; intros s s' leads Hrun k Hk.
  - now inversion Hrun.
  - destruct (route_all_cons _ _ _ _ _ Hrun) as [l [s1 [ls [Hone [Hrest _]]]]].
    rewrite (IH _ _ _ Hrest k); [|intro Hin; apply Hk; now right].
    apply (route_lead_other _ _ _ _ Hone).
    intro Heq. apply Hk. now left.
Qed.

(** The lead the i-th call returns is the one the store holds under that
    call's id when the call is over. *)
Lemma route_all_prefix (ids : list Z) :
  forall (s s' : State) (leads : list Lead),
    route_all ids s = (Return leads, s') ->
    forall (i : nat) (lead_id : Z) (lead : Lead),
      nth_error ids i = Some lead_id -> nth_error leads i = Some lead ->
      exists si : State,
        route_all (firstn (S i) ids) s = (Return (firstn (S i) leads), si) /\
        PyDict.get lead_id (LEADS si) = Some lead.
Proof.
  induction ids as [|i0 rest IH]; intros s s' leads Hrun i lead_id lead Hi Hl.
  - destruct i; discriminate.
  - destruct (route_all_cons _ _ _ _ _ Hrun)
      as [l [s1 [ls [Hone [Hrest ->]]]]].
    destruct i as [|i].
    + simpl in Hi, Hl. inversion Hi; inversion Hl; subst.
      exists s1. split.
      * now apply (route_all_cons_eq lead_id [] s s1 s1 lead []).
      * now destruct (route_lead_returns _ _ _ _ Hone) as [_ [_ [_ [_ [_ Hst]]]]].
    + simpl in Hi, Hl.
      destruct (IH _ _ _ Hrest i lead_id lead Hi Hl) as [si [Hpre Hst]].
      exists si. split; [|exact Hst].
      change (firstn (S (S i)) (i0 :: rest)) with (i0 :: firstn (S i) rest).
      change (firstn (S (S i)) (l :: ls)) with (l :: firstn (S i) ls).
      now apply (route_all_cons_eq i0 _ s s1 si l _).
Qed.

(** When the batch is over the store holds, under an id, the lead returned
    by the last call on that id. *)
Lemma route_all_stored (ids : list Z) :
  forall (s s' : State) (leads : list Lead),
    route_all ids s = (Return leads, s') ->
    forall (i : nat) (lead_id : Z) (lead : Lead),
      nth_error ids i = Some lead_id -> nth_error leads i = Some lead ->
      ~ In lead_id (skipn (S i) ids) ->
      PyDict.get lead_id (LEADS s') = Some lead.
Proof.
  induction ids as [|i0 rest IH];
    intros s s' leads Hrun i lead_id lead Hi Hl Hlast.
  - destruct i; discriminate.
  - destruct (route_all_cons _ _ _ _ _ Hrun)
      as [l [s1 [ls [Hone [Hrest ->]]]]].
    destruct i as [|i].
    + simpl in Hi, Hl, Hlast. inversion Hi; inversion Hl; subst.
      rewrite (route_all_other _ _ _ _ Hrest lead_id Hlast).
      now destruct (route_lead_returns _ _ _ _ Hone) as [_ [_ [_ [_ [_ Hst]]]]].
    + simpl in Hi, Hl. apply (IH _ _ _ Hrest i lead_id lead Hi Hl).
      exact Hlast.
Qed.

Lemma route_all_length (ids : list Z) (s s' : State) (leads : list Lead) :
  route_all ids s = (Return leads, s') ->
  List.length leads = List.length ids.
Proof.
  intro Hrun.
  destruct (route_all_returns ids s s' leads Hrun) as [_ [_ [Hmap _]]].
  apply (f_equal (@List.length _)) in Hmap.
  unfold round_robin in Hmap. now rewrite !length_map, length_seq in Hmap.
Qed.

(** C4: when a batch of [route_lead] calls, made one after the other, all
    return, the agent the i-th call (counting from 0) assigned is the roster
    entry at index [(c0 + i) mod len(roster)], [c0] being the cursor before
    the batch, and the cursor ends at [c0] plus the number of calls.  The
    assignment is in the store: right after the i-th call the store holds,
    under that call's id, the lead the call returned, and at the end of the
    batch it still does unless a later call of the batch was on the same
    id.  With three agents, seven calls and [c0 = 0] the indices are
    0,1,2,0,1,2,0 and the cursor ends at 7. *)
Theorem route_all_round_robin (ids : list Z) (s s' : State)
    (leads : list Lead) :
  route_all ids s = (Return leads, s') ->
  map assigned_to leads
    = round_robin (SALES_REPS s) (route_counter s) (List.length ids) /\
  Forall (fun l => assigned_to l <> None) leads /\
  route_counter s' = route_counter s + Z.of_nat (List.length ids) /\
  List.length leads = List.length ids /\
  (forall (i : nat) (lead_id : Z) (lead : Lead),
      nth_error ids i = Some lead_id -> nth_error leads i = Some lead ->
      exists si : State,
        route_all (firstn (S i) ids) s = (Return (firstn (S i) leads), si) /\
        PyDict.get lead_id (LEADS si) = Some lead) /\
  (forall (i : nat) (lead_id : Z) (lead : Lead),
      nth_error ids i = Some lead_id -> nth_error leads i = Some lead ->
      ~ In lead_id (skipn (S i) ids) ->
      PyDict.get lead_id (LEADS s') = Some lead) /\
  (List.length (SALES_REPS s) = 3%nat -> route_counter s = 0 ->
   List.length ids = 7%nat ->
   map assigned_to leads
     = map (nth_error (SALES_REPS s)) [0; 1; 2; 0; 1; 2; 0]%nat /\
   route_counter s' = 7).
Proof.
  intro Hrun.
  destruct (route_all_returns ids s s' leads Hrun) as [_ [Hc [Hmap Hall]]].
  split; [exact Hmap|]. split.
  { eapply Forall_impl; [|exact Hall]. now intros l [Ha _]. }
  split; [exact Hc|].
  split; [exact (route_all_length _ _ _ _ Hrun)|].
  split; [exact (route_all_prefix _ _ _ _ Hrun)|].
  split; [exact (route_all_stored _ _ _ _ Hrun)|].
  intros H3 H0 H7. rewrite Hmap, Hc, H0, H7. unfold round_robin.
  rewrite H3. split; reflexivity.
Qed.

(** ** Reporting: the counts *)

Lemma sum_values_set (k : string) (v : Z) (d : PyDict.t string Z) :
  sum_values (PyDict.set k v d)
  = sum_values d - PyDict.get_default k 0 d + v.
Proof.
  unfold sum_values, PyDict.get_default, PyDict.values.
  induction d as [|[k' v'] rest IH]; simpl; [lia|].
  destruct (keq k k') eqn:E; simpl; [lia|].
  rewrite IH. destruct (PyDict.get k rest); lia.
Qed.

Lemma incr_returns (k : string) (d d' : PyDict.t string Z) :
  incr k d = Return d' ->
  sum_values d' = sum_values d + 1 /\
  forall k' : string, PyDict.get k' d <> None -> PyDict.get k' d' <> None.
Proof.
  unfold incr. destruct (PyDict.get k d) as [n|] eqn:Hg; [|discriminate].
  intros [= <-]. split.
  - rewrite sum_values_set. unfold PyDict.get_default. rewrite Hg. lia.
  - intros k' Hk'. destruct (string_dec k k') as [<-|Hne].
    + rewrite (get_set_same keq_string_spec). discriminate.
    + now rewrite (get_set_other keq_string_spec).
Qed.

Lemma incr_present (k : string) (d : PyDict.t string Z) :
  PyDict.get k d <> None -> exists d', incr k d = Return d'.
Proof.
  unfold incr. destruct (PyDict.get k d) as [n|]; [eauto | congruence].
Qed.

(** One turn of the loop that returns: one more under the source, at most
    one more under the scores, and no agent's bucket lost. *)
Lemma count_lead_returns (lead : Lead) (c c' : Counts) :
  count_lead lead c = Return c' ->
  sum_values (by_source c') = sum_values (by_source c) + 1 /\
  sum_values (by_score c) <= sum_values (by_score c')
    <= sum_values (by_score c) + 1 /\
  (forall k : string, PyDict.get k (by_rep c) <> None ->
                      PyDict.get k (by_rep c') <> None).
Proof.
  unfold count_lead. intro Hrun.
  assert (Hsrc :
    sum_values (PyDict.set (source lead)
                  (PyDict.get_default (source lead) 0 (by_source c) + 1)
                  (by_source c))
    = sum_values (by_source c) + 1) by (rewrite sum_values_set; lia).
  destruct (match score lead with
            | Some sc => if PyDict.contains sc (by_score c)
                         then incr sc (by_score c) else Return (by_score c)
            | None => Return (by_score c)
            end) as [sco|e] eqn:Hsco; [|discriminate].
  simpl in Hrun.
  destruct (match assigned_to lead with
            | Some rep => incr (rep_name rep) (by_rep c)
            | None => Return (by_rep c)
            end) as [rp|e] eqn:Hrp; [|discriminate].
  simpl in Hrun. inversion Hrun; subst c'; clear Hrun. simpl.
  split; [exact Hsrc|]. split.
  - destruct (score lead) as [sc|].
    + destruct (PyDict.contains sc (by_score c)).
      * apply incr_returns in Hsco. lia.
      * inversion Hsco. lia.
    + inversion Hsco. lia.
  - destruct (assigned_to lead) as [rep|].
    + now apply incr_returns in Hrp.
    + now inversion Hrp.
Qed.

Lemma count_leads_returns (leads : list Lead) :
  forall c c' : Counts,
    count_leads leads c = Return c' ->
    sum_values (by_source c')
      = sum_values (by_source c) + Z.of_nat (List.length leads) /\
    sum_values (by_score c')
      <= sum_values (by_score c) + Z.of_nat (List.length leads).
Proof.
  induction leads as [|lead rest IH]; intros c c' Hrun.
  - inversion Hrun. simpl. lia.
  - simpl in Hrun.
    destruct (count_lead lead c) as [c1|e] eqn:Hone; [|discriminate].
    simpl in Hrun.
    destruct (count_lead_returns _ _ _ Hone) as [Hsrc [Hsco _]].
    destruct (IH _ _ Hrun) as [Hsrc' Hsco'].
    simpl List.length. lia.
Qed.

Lemma count_lead_succeeds (lead : Lead) (c : Counts) :
  (forall r, assigned_to lead = Some r ->
             PyDict.get (rep_name r) (by_rep c) <> None) ->
  exists c', count_lead lead c = Return c'.
Proof.
  intro Hrep. unfold count_lead.
  assert (Hsco : exists sco,
    match score lead with
    | Some sc => if PyDict.contains sc (by_score c)
                 then incr sc (by_score c) else Return (by_score c)
    | None => Return (by_score c)
    end = Return sco).
  { destruct (score lead) as [sc|]; [|eauto].
    unfold PyDict.contains.
    destruct (PyDict.get sc (by_score c)) as [n|] eqn:Hg; [|eauto].
    apply incr_present. congruence. }
  destruct Hsco as [sco ->]. simpl.
  destruct (assigned_to lead) as [rep|]; [|simpl; eauto].
  destruct (incr_present (rep_name rep) (by_rep c)) as [rp ->];
    [now apply Hrep | simpl; eauto].
Qed.

Lemma count_leads_succeeds (leads : list Lead) :
  forall c : Counts,
    (forall l r, In l leads -> assigned_to l = Some r ->
                 PyDict.get (rep_name r) (by_rep c) <> None) ->
    exists c', count_leads leads c = Return c'.
Proof.
  induction leads as [|lead rest IH]; intros c Hrep; simpl; [eauto|].
  destruct (count_lead_succeeds lead c) as [c1 Hone].
  - intros r Hr. apply (Hrep lead r); [now left | exact Hr].
  - rewrite Hone. simpl. apply IH.
    intros l r Hl Hr.
    destruct (count_lead_returns _ _ _ Hone) as [_ [_ Hkeep]].
    apply Hkeep. apply (Hrep l r); [now right | exact Hr].
Qed.

Lemma zero_per_rep_from (reps : list Rep) :
  forall (d : PyDict.t string Z) (k : string),
    PyDict.get k d <> None \/ In k (map rep_name reps) ->
    PyDict.get k (fold_left (fun d rep => PyDict.set (rep_name rep) 0 d) reps d)
      <> None.
Proof.
  induction reps as [|r rest IH]; intros d k Hk; simpl.
  - destruct Hk as [Hd|[]]. exact Hd.
  - apply IH.
    destruct (string_dec (rep_name r) k) as [<-|Hne].
    + left. rewrite (get_set_same keq_string_spec). discriminate.
    + rewrite (get_set_other keq_string_spec) by exact Hne.
      destruct Hk as [Hd|[Heq|Hin]]; [now left | contradiction | now right].
Qed.

Lemma zero_per_rep_covers (reps : list Rep) (r : Rep) :
  In r reps -> PyDict.get (rep_name r) (zero_per_rep reps) <> None.
Proof.
  intro Hin. apply zero_per_rep_from. right. now apply in_map.
Qed.

Lemma zero_per_rep_zero (reps : list Rep) :
  Forall (fun v => v = 0) (PyDict.values (zero_per_rep reps)).
Proof.
  unfold zero_per_rep.
  assert (Hgen : forall d : PyDict.t string Z,
    Forall (fun v => v = 0) (PyDict.values d) ->
    Forall (fun v => v = 0)
      (PyDict.values (fold_left (fun d rep => PyDict.set (rep_name rep) 0 d) reps d))).
  { induction reps as [|r rest IH]; intros d Hd; simpl; [exact Hd|].
    apply IH. unfold PyDict.values in *.
    rewrite Forall_forall in *. intros v Hv.
    apply in_map_iff in Hv. destruct Hv as [[k v'] [Heq Hin]].
    simpl in Heq. subst v'.
    destruct (In_set keq_string_spec _ _ _ _ _ Hin) as [Hold|[_ Hnew]];
      [|exact Hnew].
    apply Hd. apply in_map_iff. now exists (k, v). }
  apply Hgen. constructor.
Qed.

(** When every assigned lead names an agent of the roster, the report is
    produced.  *)
Lemma report_performance_returns (s : State) :
  assigned_in_roster s ->
  exists r : Report, report_performance s = (Return r, s).
Proof.
  intro Hroster. unfold_op.
  destruct (count_leads_succeeds (PyDict.values (LEADS s))
              {| by_source := []; by_score := [("MQL", 0); ("SQL", 0)];
                 by_rep := zero_per_rep (SALES_REPS s) |}) as [c Hc].
  - intros l r Hl Hr. simpl. apply zero_per_rep_covers.
    unfold PyDict.values in Hl. apply in_map_iff in Hl.
    destruct Hl as [[k l'] [Heq Hin]]. simpl in Heq. subst l'.
    now apply (Hroster k l r).
  - rewrite Hc. eauto.
Qed.

(** On an empty store the report is produced and every count in it is 0. *)
Lemma report_performance_empty_store (s : State) :
  LEADS s = [] ->
  exists r : Report,
    report_performance s = (Return r, s) /\
    total_leads (report_data r) = 0 /\
    leads_by_source (report_data r) = [] /\
    leads_by_score (report_data r) = [("MQL", 0); ("SQL", 0)] /\
    Forall (fun v => v = 0) (PyDict.values (leads_by_rep (report_data r))).
Proof.
  intro He. unfold_op. rewrite He. simpl.
  eexists. split; [reflexivity|]. simpl.
  repeat split. apply zero_per_rep_zero.
Qed.

(** C5: whenever [report_performance] returns a report, the counts by source
    add up to [total_leads], [total_leads] is the number of entries of the
    store, and the counts by score add up to at most [total_leads]. *)
Theorem report_totals_consistent (s s' : State) (r : Report) :
  report_performance s = (Return r, s') ->
  sum_values (leads_by_source (report_data r)) = total_leads (report_data r) /\
  total_leads (report_data r) = PyDict.len (LEADS s) /\
  sum_values (leads_by_score (report_data r)) <= total_leads (report_data r).
Proof.
  unfold_op.
  destruct (count_leads (PyDict.values (LEADS s)) _) as [c|e] eqn:Hc;
    [|discriminate].
  intros [= <- _]. simpl.
  destruct (count_leads_returns _ _ _ Hc) as [Hsrc Hsco].
  simpl in Hsrc, Hsco.
  unfold PyDict.values in Hsrc, Hsco. rewrite length_map in Hsrc, Hsco.
  unfold PyDict.len. change (sum_values []) with 0 in Hsrc.
  change (sum_values [("MQL", 0); ("SQL", 0)]) with 0 in Hsco.
  lia.
Qed.

(** C2, as the claim has it, fails: on a store built to hold a lead assigned
    to "Dave", who is not in the roster, [report_performance] does not
    complete with the lead left out, it raises [KeyError] for "Dave". *)
Theorem report_performance_raises_on_stale_assignment :
  PyDict.get "Dave" (zero_per_rep (SALES_REPS stale_assignment_state)) = None /\
  report_performance stale_assignment_state
    = (Raise (KeyError (VStr "Dave")), stale_assignment_state).
Proof.
  split; reflexivity.
Qed.

(** ** What sequential runs preserve *)

(** The store after one call: untouched, or one stored lead replaced under
    its key by an updated copy, or (for [ingest_lead]) the new lead written
    under [len(LEADS) + 1]. *)
Lemma run_op_store (o : Op) (s : State) :
  LEADS (run_op o s) = LEADS s \/
  (exists (k : Z) (l l' : Lead),
      PyDict.get k (LEADS s) = Some l /\
      LEADS (run_op o s) = PyDict.set k l' (LEADS s) /\
      id l' = id l /\
      ((assigned_to l' = assigned_to l /\ status l' = status l) \/
       (exists rep, In rep (SALES_REPS s) /\ assigned_to l' = Some rep
                    /\ status l' = "assigned"))) \/
  (exists t n e src x,
      o = Ingest t n e src x /\
      LEADS (run_op o s) =
        PyDict.set (PyDict.len (LEADS s) + 1)
          (mkLead (PyDict.len (LEADS s) + 1) t n e src (extra_or_empty x)
                  "new" None None)
          (LEADS s)).
Proof.
  destruct o as [t n e src x|i|i|i|]; unfold run_op.
  - right. right. exists t, n, e, src, x. now rewrite ingest_lead_eq.
  - destruct (PyDict.get i (LEADS s)) as [lead|] eqn:Hg.
    + right. left. rewrite (enrich_lead_present s i lead Hg).
      eexists i, lead, _. split; [exact Hg|]. split; [reflexivity|].
      split; [reflexivity|]. left. now split.
    + left. now rewrite (enrich_lead_missing s i Hg).
  - destruct (PyDict.get i (LEADS s)) as [lead|] eqn:Hg.
    + right. left. rewrite (score_lead_present s i lead Hg).
      eexists i, lead, _. split; [exact Hg|]. split; [reflexivity|].
      split; [reflexivity|]. left. now split.
    + left. now rewrite (score_lead_missing s i Hg).
  - destruct (PyDict.get i (LEADS s)) as [lead|] eqn:Hg.
    + destruct (nil_or_not (SALES_REPS s)) as [Hr|Hne].
      * left. now rewrite (route_lead_empty_roster s i lead Hg Hr).
      * right. left.
        destruct (route_lead_present s i lead Hg Hne) as [rep [Hnth Heq]].
        rewrite Heq.
        eexists i, lead, _. split; [exact Hg|]. split; [reflexivity|].
        split; [reflexivity|]. right. exists rep.
        split; [now apply nth_error_In in Hnth | now split].
    + left. now rewrite (route_lead_missing s i Hg).
  - left. now rewrite report_performance_state.
Qed.

Lemma keys_in_sequence_fresh (s : State) :
  PyDict.keys (LEADS s) = map Z.of_nat (seq 1 (List.length (LEADS s))) ->
  PyDict.get (PyDict.len (LEADS s) + 1) (LEADS s) = None.
Proof.
  intro Hk. apply (get_None_keys keq_Z_spec). rewrite Hk.
  intro Hin. apply in_map_iff in Hin. destruct Hin as [j [Hj Hin]].
  apply in_seq in Hin. unfold PyDict.len in Hj. lia.
Qed.

Lemma store_ok_initial : store_ok initial_state.
Proof.
  unfold store_ok, assigned_in_roster. simpl.
  repeat split; try reflexivity; intros; contradiction.
Qed.

Lemma store_ok_step (o : Op) (s : State) :
  store_ok s -> store_ok (run_op o s).
Proof.
  intros [Hkeys [Hids [Hcons [Hroster Hreps]]]].
  destruct (run_op_globals o s) as [Hreps' _].
  unfold store_ok, assigned_in_roster in *. rewrite Hreps'.
  destruct (run_op_store o s)
    as [Hset | [[k [l [l' [Hg [Hset [Hid Hch]]]]]] |
                 [t [n [e [src [x [Ho Hset]]]]]]]];
    rewrite Hset; clear Hset.
  - split; [|split; [|split; [|split]]]; assumption.
  - assert (Hl : In (k, l) (LEADS s)) by now apply (get_In keq_Z_spec).
    split; [|split; [|split; [|split]]].
    + rewrite (set_present_keys k l' l _ Hg), (set_present_length k l' l _ Hg).
      exact Hkeys.
    + intros k0 l0 Hin.
      destruct (In_set keq_Z_spec _ _ _ _ _ Hin) as [Hold|[-> ->]];
        [now apply Hids|].
      rewrite Hid. now apply Hids.
    + intros k0 l0 Hin.
      destruct (In_set keq_Z_spec _ _ _ _ _ Hin) as [Hold|[-> ->]];
        [now apply (Hcons k0)|].
      unfold assignment_consistent.
      destruct Hch as [[Ha Hs]|[rep [_ [Ha Hs]]]].
      * rewrite Ha, Hs. now apply (Hcons k).
      * rewrite Ha, Hs. split; [reflexivity | discriminate].
    + intros k0 l0 r Hin Hr.
      destruct (In_set keq_Z_spec _ _ _ _ _ Hin) as [Hold|[-> ->]];
        [now apply (Hroster k0 l0)|].
      destruct Hch as [[Ha _]|[rep [Hrep [Ha _]]]].
      * rewrite Ha in Hr. now apply (Hroster k l).
      * congruence.
    + exact Hreps.
  - pose proof (keys_in_sequence_fresh s Hkeys) as Hfresh.
    rewrite (set_fresh _ _ _ Hfresh).
    split; [|split; [|split; [|split]]].
    + unfold PyDict.keys in *. rewrite map_app, Hkeys, length_app.
      simpl. rewrite Nat.add_1_r, seq_S, map_app. simpl.
      do 2 f_equal. unfold PyDict.len. lia.
    + intros k0 l0 Hin. apply in_app_or in Hin.
      destruct Hin as [Hold|[[= <- <-]|[]]]; [now apply Hids | reflexivity].
    + intros k0 l0 Hin. apply in_app_or in Hin.
      destruct Hin as [Hold|[[= <- <-]|[]]]; [now apply (Hcons k0)|].
      unfold assignment_consistent. simpl. split; [congruence | discriminate].
    + intros k0 l0 r Hin Hr. apply in_app_or in Hin.
      destruct Hin as [Hold|[[= <- <-]|[]]]; [now apply (Hroster k0 l0)|].
      discriminate.
    + exact Hreps.
Qed.

Lemma reachable_store_ok (s : State) : reachable s -> store_ok s.
Proof.
  induction 1 as [|s o _ IH]; [apply store_ok_initial | now apply store_ok_step].
Qed.

Lemma run_ops_store_ok (ops : list Op) :
  forall s : State, store_ok s -> store_ok (run_ops ops s).
Proof.
  unfold run_ops.
  induction ops as [|o rest IH]; intros s Hs; simpl; [exact Hs|].
  apply IH. now apply store_ok_step.
Qed.

Lemma run_ops_reachable (ops : list Op) :
  forall s : State, reachable s -> reachable (run_ops ops s).
Proof.
  unfold run_ops.
  induction ops as [|o rest IH]; intros s Hs; simpl; [exact Hs|].
  apply IH. now constructor.
Qed.

(** On every state a run can produce, the report is produced. *)
Lemma report_performance_returns_reachable (s : State) :
  reachable s -> exists r : Report, report_performance s = (Return r, s).
Proof.
  intro Hs. apply report_performance_returns.
  now destruct (reachable_store_ok s Hs) as [_ [_ [_ [Hroster _]]]].
Qed.

(** C2, amended: [report_performance] never fails on a state the operations
    can produce.  There every lead that has an agent has one of the roster
    (routing stores roster entries only and nothing writes the roster), and
    whenever that is so the aggregation completes in the state it started
    from; on an empty store it completes with every count 0. *)
Theorem report_performance_returns_on_runs :
  (forall s : State,
      reachable s ->
      assigned_in_roster s /\
      exists r : Report, report_performance s = (Return r, s)) /\
  (forall s : State,
      assigned_in_roster s ->
      exists r : Report, report_performance s = (Return r, s)) /\
  (forall s : State,
      LEADS s = [] ->
      exists r : Report,
        report_performance s = (Return r, s) /\
        total_leads (report_data r) = 0 /\
        leads_by_source (report_data r) = [] /\
        leads_by_score (report_data r) = [("MQL", 0); ("SQL", 0)] /\
        Forall (fun v => v = 0) (PyDict.values (leads_by_rep (report_data r)))).
Proof.
  split; [|split].
  - intros s Hs.
    destruct (reachable_store_ok s Hs) as [_ [_ [_ [Hroster _]]]].
    split; [exact Hroster | now apply report_performance_returns].
  - exact report_performance_returns.
  - exact report_performance_empty_store.
Qed.

(** ** Ingestion *)

Lemma run_op_keys (o : Op) (s : State) :
  store_ok s ->
  PyDict.keys (LEADS (run_op o s)) =
  match o with
  | Ingest _ _ _ _ _ =>
      (PyDict.keys (LEADS s) ++ [PyDict.len (LEADS s) + 1])%list
  | _ => PyDict.keys (LEADS s)
  end.
Proof.
  intros [Hkeys _].
  destruct (run_op_store o s)
    as [Hset | [[k [l [l' [Hg [Hset _]]]]] | [t [n [e [src [x [Ho Hset]]]]]]]].
  - destruct o; try (now rewrite Hset).
    unfold run_op in Hset. rewrite ingest_lead_eq in Hset. simpl in Hset.
    rewrite (set_fresh _ _ _ (keys_in_sequence_fresh s Hkeys)) in Hset.
    apply (f_equal (@List.length _)) in Hset. rewrite length_app in Hset.
    simpl in Hset. lia.
  - destruct o; try (now rewrite Hset, (set_present_keys k l' l _ Hg)).
    unfold run_op in Hset. rewrite ingest_lead_eq in Hset. simpl in Hset.
    rewrite (set_fresh _ _ _ (keys_in_sequence_fresh s Hkeys)) in Hset.
    apply (f_equal (@List.length _)) in Hset.
    rewrite length_app, (set_present_length k l' l _ Hg) in Hset.
    simpl in Hset. lia.
  - subst o. rewrite Hset.
    rewrite (set_fresh _ _ _ (keys_in_sequence_fresh s Hkeys)).
    unfold PyDict.keys. now rewrite map_app.
Qed.

(** No id is lost and none is handed out twice: the keys of the store are
    the keys it had, followed by the ids the run's [ingest_lead] calls
    returned. *)
Lemma issued_ids_keys (ops : list Op) :
  forall s : State,
    store_ok s ->
    PyDict.keys (LEADS (run_ops ops s))
    = (PyDict.keys (LEADS s) ++ issued_ids ops s)%list.
Proof.
  induction ops as [|o rest IH]; intros s Hs.
  - simpl. now rewrite app_nil_r.
  - change (run_ops (o :: rest) s) with (run_ops rest (run_op o s)).
    rewrite (IH _ (store_ok_step o s Hs)), (run_op_keys o s Hs).
    destruct o as [t n e src x|i|i|i|]; try reflexivity.
    cbn [issued_ids]. rewrite ingest_lead_eq. cbn [fst id].
    now rewrite <- app_assoc.
Qed.

(** C6: after any run of the five operations from the initial state,
    [ingest_lead] returns, whatever its arguments, a lead with status "new",
    no score, no agent, and id [len(LEADS) + 1]; no entry of the store has
    that key or that id and no earlier [ingest_lead] call of the run issued
    it; and the one effect of the call is that the lead is appended to the
    store under that id (roster, cursor and output are as before). *)
Theorem ingest_lead_fresh (ops : list Op) (t : Z) (n e src : string)
    (x : option (PyDict.t string PyVal)) :
  let s := run_ops ops initial_state in
  let lid := PyDict.len (LEADS s) + 1 in
  let lead := mkLead lid t n e src (extra_or_empty x) "new" None None in
  ingest_lead t n e src x s =
    (Return lead,
     {| LEADS := (LEADS s ++ [(lid, lead)])%list;
        SALES_REPS := SALES_REPS s;
        route_counter := route_counter s;
        stdout := stdout s |}) /\
  status lead = "new" /\ score lead = None /\ assigned_to lead = None /\
  id lead = PyDict.len (LEADS s) + 1 /\
  PyDict.get lid (LEADS s) = None /\
  ~ In lid (issued_ids ops initial_state) /\
  (forall k l, In (k, l) (LEADS s) -> k <> lid /\ id l <> lid).
Proof.
  intros s lid lead.
  assert (Hok : store_ok s) by (apply run_ops_store_ok, store_ok_initial).
  pose proof Hok as [Hkeys [Hids _]].
  pose proof (keys_in_sequence_fresh s Hkeys) as Hfresh. fold lid in Hfresh.
  assert (Hnew : forall k l, In (k, l) (LEADS s) -> k <> lid).
  { intros k l Hin ->. apply (get_None_keys keq_Z_spec) in Hfresh.
    apply Hfresh. unfold PyDict.keys. apply in_map_iff. now exists (lid, l). }
  split.
  - rewrite ingest_lead_eq. fold lid. fold lead.
    now rewrite (set_fresh _ _ _ Hfresh).
  - do 5 (split; [reflexivity || exact Hfresh|]). split.
    + intro Hin. apply (get_None_keys keq_Z_spec) in Hfresh. apply Hfresh.
      unfold s. rewrite (issued_ids_keys ops _ store_ok_initial). exact Hin.
    + intros k l Hin. split; [now apply (Hnew k l)|].
      rewrite (Hids k l Hin). now apply (Hnew k l).
Qed.

(** ** Assignment and status *)

(** C9: in every state a run of the five operations reaches, each stored
    lead has an agent exactly when its status is "assigned"; and a single
    call leaves a stored lead in place with both fields as they were, unless
    the call is [route_lead] on that lead, which then returns having set the
    agent and the status "assigned" together. *)
Theorem assignment_and_status_together (s : State) :
  reachable s ->
  (forall k l, In (k, l) (LEADS s) -> assignment_consistent l) /\
  (forall (o : Op) (k : Z) (l : Lead),
      PyDict.get k (LEADS s) = Some l ->
      exists l' : Lead,
        PyDict.get k (LEADS (run_op o s)) = Some l' /\
        if is_route_of k o
        then assigned_to l' <> None /\ status l' = "assigned"
        else assigned_to l' = assigned_to l /\ status l' = status l).
Proof.
  intro Hs.
  destruct (reachable_store_ok s Hs) as [Hkeys [_ [Hcons [_ Hreps]]]].
  split; [exact Hcons|].
  assert (Hne : SALES_REPS s <> []) by (rewrite Hreps; discriminate).
  intros o k l Hgk.
  assert (Hupd : forall i li li',
    PyDict.get i (LEADS s) = Some li ->
    (i = k -> assigned_to li' = assigned_to li /\ status li' = status li) ->
    exists l', PyDict.get k (PyDict.set i li' (LEADS s)) = Some l' /\
               assigned_to l' = assigned_to l /\ status l' = status l).
  { intros i li li' Hgi Hsame. destruct (Z.eq_dec i k) as [->|Hik].
    - exists li'. rewrite (get_set_same keq_Z_spec). split; [reflexivity|].
      rewrite Hgk in Hgi. inversion Hgi; subst li. now apply Hsame.
    - exists l. now rewrite (get_set_other keq_Z_spec). }
  destruct o as [t n e src x|i|i|i|]; unfold run_op; cbn [is_route_of].
  - rewrite ingest_lead_eq. cbn [snd LEADS].
    pose proof (keys_in_sequence_fresh s Hkeys) as Hfresh.
    exists l. split; [|now split].
    rewrite (get_set_other keq_Z_spec); [exact Hgk | congruence].
  - destruct (PyDict.get i (LEADS s)) as [li|] eqn:Hgi.
    + rewrite (enrich_lead_present s i li Hgi). cbn [snd LEADS].
      apply (Hupd i li); [exact Hgi | now split].
    + rewrite (enrich_lead_missing s i Hgi). exists l. now repeat split.
  - destruct (PyDict.get i (LEADS s)) as [li|] eqn:Hgi.
    + rewrite (score_lead_present s i li Hgi). cbn [snd LEADS].
      apply (Hupd i li); [exact Hgi | now split].
    + rewrite (score_lead_missing s i Hgi). exists l. now repeat split.
  - destruct (Z.eqb_spec i k) as [->|Hik].
    + destruct (route_lead_present s k l Hgk Hne) as [rep [_ Heq]].
      rewrite Heq. cbn [snd LEADS]. eexists.
      split; [apply (get_set_same keq_Z_spec)|]. simpl.
      split; [discriminate | reflexivity].
    + destruct (PyDict.get i (LEADS s)) as [li|] eqn:Hgi.
      * destruct (route_lead_present s i li Hgi Hne) as [rep [_ Heq]].
        rewrite Heq. cbn [snd LEADS].
        apply (Hupd i li); [exact Hgi | contradiction].
      * rewrite (route_lead_missing s i Hgi). exists l. now repeat split.
  - rewrite report_performance_state. exists l. now repeat split.
Qed.

(** ** Reporting: what each bucket counts *)

Lemma count_by_cons (p : Lead -> bool) (l : Lead) (rest : list Lead) :
  count_by p (l :: rest) = (if p l then 1 else 0) + count_by p rest.
Proof.
  unfold count_by. simpl. destruct (p l); simpl List.length; lia.
Qed.

Lemma count_by_app (p : Lead -> bool) (xs ys : list Lead) :
  count_by p (xs ++ ys) = count_by p xs + count_by p ys.
Proof.
  unfold count_by. rewrite filter_app, length_app. lia.
Qed.

Lemma count_by_nonneg (p : Lead -> bool) (leads : list Lead) :
  0 <= count_by p leads.
Proof. unfold count_by. lia. Qed.

Lemma get_default_set (k k' : string) (v : Z) (d : PyDict.t string Z) :
  PyDict.get_default k' 0 (PyDict.set k v d)
  = if String.eqb k' k then v else PyDict.get_default k' 0 d.
Proof.
  unfold PyDict.get_default.
  destruct (String.eqb_spec k' k) as [->|Hne].
  - now rewrite (get_set_same keq_string_spec).
  - rewrite (get_set_other keq_string_spec); [reflexivity | congruence].
Qed.

Lemma get_set_keeps {V : Type} (k k' : string) (v : V)
    (d : PyDict.t string V) :
  PyDict.get k' d <> None -> PyDict.get k' (PyDict.set k v d) <> None.
Proof.
  intro Hk. destruct (string_dec k k') as [<-|Hne].
  - rewrite (get_set_same keq_string_spec). discriminate.
  - now rewrite (get_set_other keq_string_spec).
Qed.

(** [d[k] += 1] that returns: the key was there, the keys are as before and
    only [k]'s count moved, by one. *)
Lemma incr_inv (k : string) (d d' : PyDict.t string Z) :
  incr k d = Return d' ->
  PyDict.get k d <> None /\
  PyDict.keys d' = PyDict.keys d /\
  forall k' : string,
    PyDict.get_default k' 0 d'
    = PyDict.get_default k' 0 d + (if String.eqb k' k then 1 else 0).
Proof.
  unfold incr. destruct (PyDict.get k d) as [n|] eqn:Hg; [|discriminate].
  intros [= <-]. split; [discriminate|]. split.
  - now apply (set_present_keys k (n + 1) n).
  - intro k'. rewrite get_default_set.
    destruct (String.eqb_spec k' k) as [->|Hne]; [|lia].
    unfold PyDict.get_default. now rewrite Hg.
Qed.

Lemma incr_raises (k : string) (d : PyDict.t string Z) (e : PyErr) :
  incr k d = Raise e -> PyDict.get k d = None /\ e = KeyError (VStr k).
Proof.
  unfold incr. destruct (PyDict.get k d); [discriminate|].
  intros [= <-]. now split.
Qed.

(** The three dicts after one turn of the loop that returns. *)
Lemma count_lead_inv (lead : Lead) (c c' : Counts) :
  count_lead lead c = Return c' ->
  by_source c' =
    PyDict.set (source lead)
      (PyDict.get_default (source lead) 0 (by_source c) + 1) (by_source c) /\
  match score lead with
  | Some sc => if PyDict.contains sc (by_score c)
               then incr sc (by_score c) else Return (by_score c)
  | None => Return (by_score c)
  end = Return (by_score c') /\
  match assigned_to lead with
  | Some rep => incr (rep_name rep) (by_rep c)
  | None => Return (by_rep c)
  end = Return (by_rep c').
Proof.
  unfold count_lead. intro Hrun.
  destruct (match score lead with
            | Some sc => if PyDict.contains sc (by_score c)
                         then incr sc (by_score c) else Return (by_score c)
            | None => Return (by_score c)
            end) as [sco|e]; [|discriminate].
  simpl in Hrun.
  destruct (match assigned_to lead with
            | Some rep => incr (rep_name rep) (by_rep c)
            | None => Return (by_rep c)
            end) as [rp|e]; [|discriminate].
  simpl in Hrun. inversion Hrun. now simpl.
Qed.

(** A turn of the loop raises only at the per-agent lookup. *)
Lemma count_lead_raises (lead : Lead) (c : Counts) (e : PyErr) :
  count_lead lead c = Raise e ->
  exists rep, assigned_to lead = Some rep /\
              PyDict.get (rep_name rep) (by_rep c) = None /\
              e = KeyError (VStr (rep_name rep)).
Proof.
  unfold count_lead. intro Hrun.
  destruct (match score lead with
            | Some sc => if PyDict.contains sc (by_score c)
                         then incr sc (by_score c) else Return (by_score c)
            | None => Return (by_score c)
            end) as [sco|e0] eqn:Hsco.
  - simpl in Hrun. destruct (assigned_to lead) as [rep|]; [|discriminate].
    destruct (incr (rep_name rep) (by_rep c)) as [rp|e1] eqn:Hrp;
      [discriminate|].
    simpl in Hrun. inversion Hrun; subst e1.
    destruct (incr_raises _ _ _ Hrp) as [Hnone He].
    now exists rep.
  - exfalso. destruct (score lead) as [sc|]; [|discriminate].
    unfold PyDict.contains in Hsco.
    destruct (PyDict.get sc (by_score c)) as [n|] eqn:Hg; [|discriminate].
    unfold incr in Hsco. rewrite Hg in Hsco. discriminate.
Qed.

Lemma count_lead_rep_keys (lead : Lead) (c c' : Counts) :
  count_lead lead c = Return c' ->
  PyDict.keys (by_rep c') = PyDict.keys (by_rep c).
Proof.
  intro Hrun. destruct (count_lead_inv _ _ _ Hrun) as [_ [_ Hrep]].
  destruct (assigned_to lead) as [rep|].
  - now destruct (incr_inv _ _ _ Hrep) as [_ [Hk _]].
  - now inversion Hrep.
Qed.

Lemma get_keys_eq {V W : Type} (k : string) (d : PyDict.t string V)
    (d' : PyDict.t string W) :
  PyDict.keys d' = PyDict.keys d ->
  PyDict.get k d = None -> PyDict.get k d' = None.
Proof.
  intros Hk Hg. apply (get_None_keys keq_string_spec).
  apply (get_None_keys keq_string_spec) in Hg. now rewrite Hk.
Qed.

Lemma count_leads_raises (leads : list Lead) :
  forall (c : Counts) (e : PyErr),
    count_leads leads c = Raise e ->
    exists l rep, In l leads /\ assigned_to l = Some rep /\
                  PyDict.get (rep_name rep) (by_rep c) = None /\
                  e = KeyError (VStr (rep_name rep)).
Proof.
  induction leads as [|lead rest IH]; intros c e Hrun; [discriminate|].
  simpl in Hrun. destruct (count_lead lead c) as [c1|e1] eqn:Hone.
  - simpl in Hrun. destruct (IH _ _ Hrun) as [l [rep [Hin [Ha [Hg He]]]]].
    exists l, rep. split; [now right|]. split; [exact Ha|]. split; [|exact He].
    apply (get_keys_eq _ (by_rep c1)); [|exact Hg].
    symmetry. now apply (count_lead_rep_keys lead).
  - simpl in Hrun. inversion Hrun; subst e1.
    destruct (count_lead_raises _ _ _ Hone) as [rep [Ha [Hg He]]].
    exists lead, rep. split; [now left | now repeat split].
Qed.

Lemma count_leads_rep_keys (leads : list Lead) :
  forall c c' : Counts,
    count_leads leads c = Return c' ->
    PyDict.keys (by_rep c') = PyDict.keys (by_rep c) /\
    forall l rep, In l leads -> assigned_to l = Some rep ->
                  PyDict.get (rep_name rep) (by_rep c) <> None.
Proof.
  induction leads as [|lead rest IH]; intros c c' Hrun.
  - inversion Hrun. split; [reflexivity | intros l rep []].
  - simpl in Hrun. destruct (count_lead lead c) as [c1|e1] eqn:Hone;
      [|discriminate].
    simpl in Hrun. destruct (IH _ _ Hrun) as [Hk Hall].
    pose proof (count_lead_rep_keys _ _ _ Hone) as Hk1.
    split; [congruence|].
    intros l rep [<-|Hin] Ha.
    + destruct (count_lead_inv _ _ _ Hone) as [_ [_ Hrep]].
      rewrite Ha in Hrep. now destruct (incr_inv _ _ _ Hrep) as [Hg _].
    + intro Hnone. apply (Hall l rep Hin Ha).
      now apply (get_keys_eq _ (by_rep c)).
Qed.

Lemma zero_per_rep_keys_from (reps : list Rep) :
  forall (d : PyDict.t string Z) (k : string),
    PyDict.get k (fold_left (fun d rep => PyDict.set (rep_name rep) 0 d) reps d)
      <> None ->
    PyDict.get k d <> None \/ In k (map rep_name reps).
Proof.
  induction reps as [|r rest IH]; intros d k Hk; simpl in *; [now left|].
  destruct (IH _ _ Hk) as [Hd|Hin]; [|right; now right].
  destruct (string_dec (rep_name r) k) as [Heq|Hne]; [right; now left|].
  left. now rewrite (get_set_other keq_string_spec) in Hd.
Qed.

Lemma zero_per_rep_get (reps : list Rep) (k : string) :
  PyDict.get k (zero_per_rep reps) <> None <-> In k (map rep_name reps).
Proof.
  split.
  - intro Hk. destruct (zero_per_rep_keys_from reps [] k Hk) as [Hd|Hin];
      [now contradiction Hd | exact Hin].
  - intro Hin. apply zero_per_rep_from. now right.
Qed.

Lemma count_leads_by_source (leads : list Lead) :
  forall c c' : Counts,
    count_leads leads c = Return c' ->
    forall k : string,
      PyDict.get_default k 0 (by_source c')
        = PyDict.get_default k 0 (by_source c) + count_by (has_source k) leads /\
      (PyDict.get k (by_source c') <> None <->
       PyDict.get k (by_source c) <> None
       \/ exists l, In l leads /\ source l = k).
Proof.
  induction leads as [|lead rest IH]; intros c c' Hrun k.
  - inversion Hrun. unfold count_by. simpl. split; [lia|].
    split; [now left | intros [Hk|[l [[] _]]]; exact Hk].
  - simpl in Hrun. destruct (count_lead lead c) as [c1|e1] eqn:Hone;
      [|discriminate].
    simpl in Hrun. destruct (IH _ _ Hrun k) as [Hcnt Hkey].
    destruct (count_lead_inv _ _ _ Hone) as [Hsrc _].
    rewrite Hcnt, Hkey, Hsrc, count_by_cons, get_default_set.
    unfold has_source. rewrite (String.eqb_sym (source lead) k).
    split.
    + destruct (String.eqb_spec k (source lead)) as [->|Hne]; lia.
    + split.
      * intros [Hk|[l [Hin Hl]]].
        -- destruct (string_dec (source lead) k) as [Heq|Hne].
           ++ right. exists lead. split; [now left | exact Heq].
           ++ left. now rewrite (get_set_other keq_string_spec) in Hk.
        -- right. exists l. split; [now right | exact Hl].
      * intros [Hk|[l [[<-|Hin] Hl]]].
        -- left. now apply get_set_keeps.
        -- left. rewrite Hl, (get_set_same keq_string_spec). discriminate.
        -- right. now exists l.
Qed.

Lemma count_lead_by_score (lead : Lead) (c c' : Counts) (a b : Z) :
  by_score c = [("MQL", a); ("SQL", b)] ->
  count_lead lead c = Return c' ->
  by_score c' = [("MQL", a + (if has_score "MQL" lead then 1 else 0));
                 ("SQL", b + (if has_score "SQL" lead then 1 else 0))].
Proof.
  intros Hc Hrun. destruct (count_lead_inv _ _ _ Hrun) as [_ [Hsco _]].
  rewrite Hc in Hsco. unfold has_score.
  destruct (score lead) as [sc|].
  - unfold PyDict.contains, incr in Hsco. simpl in Hsco.
    unfold keq, KeyEq_string in Hsco.
    destruct (String.eqb sc "MQL") eqn:Em.
    + apply String.eqb_eq in Em. subst sc.
      simpl in Hsco. inversion Hsco. simpl. now rewrite Z.add_0_r.
    + destruct (String.eqb sc "SQL") eqn:Eq.
      * inversion Hsco. now rewrite Z.add_0_r.
      * inversion Hsco. now rewrite !Z.add_0_r.
  - inversion Hsco. now rewrite !Z.add_0_r.
Qed.

Lemma count_leads_by_score (leads : list Lead) :
  forall (c c' : Counts) (a b : Z),
    by_score c = [("MQL", a); ("SQL", b)] ->
    count_leads leads c = Return c' ->
    by_score c' = [("MQL", a + count_by (has_score "MQL") leads);
                   ("SQL", b + count_by (has_score "SQL") leads)].
Proof.
  induction leads as [|lead rest IH]; intros c c' a b Hc Hrun.
  - inversion Hrun; subst c'. unfold count_by. simpl.
    now rewrite !Z.add_0_r.
  - simpl in Hrun. destruct (count_lead lead c) as [c1|e1] eqn:Hone;
      [|discriminate].
    simpl in Hrun.
    rewrite (IH _ _ _ _ (count_lead_by_score _ _ _ _ _ Hc Hone) Hrun).
    rewrite !count_by_cons. now rewrite !Z.add_assoc.
Qed.

Lemma count_leads_by_rep (leads : list Lead) :
  forall c c' : Counts,
    count_leads leads c = Return c' ->
    sum_values (by_rep c')
      = sum_values (by_rep c) + count_by is_assigned leads /\
    forall k : string,
      PyDict.get_default k 0 (by_rep c')
      = PyDict.get_default k 0 (by_rep c) + count_by (assigned_name k) leads.
Proof.
  induction leads as [|lead rest IH]; intros c c' Hrun.
  - inversion Hrun. unfold count_by. simpl. split; [lia | intro k; lia].
  - simpl in Hrun. destruct (count_lead lead c) as [c1|e1] eqn:Hone;
      [|discriminate].
    simpl in Hrun. destruct (IH _ _ Hrun) as [Hsum Hcnt].
    destruct (count_lead_inv _ _ _ Hone) as [_ [_ Hrep]].
    split.
    + rewrite Hsum, count_by_cons. unfold is_assigned.
      destruct (assigned_to lead) as [rep|].
      * destruct (incr_returns _ _ _ Hrep) as [Hs _]. lia.
      * inversion Hrep. lia.
    + intro k. rewrite Hcnt, count_by_cons. unfold assigned_name.
      destruct (assigned_to lead) as [rep|].
      * destruct (incr_inv _ _ _ Hrep) as [_ [_ Hone']].
        rewrite Hone', (String.eqb_sym (rep_name rep) k). lia.
      * inversion Hrep. lia.
Qed.

Lemma all_zero_get_default (d : PyDict.t string Z) (k : string) :
  Forall (fun v => v = 0) (PyDict.values d) -> PyDict.get_default k 0 d = 0.
Proof.
  intro Hall. unfold PyDict.get_default.
  destruct (PyDict.get k d) as [v|] eqn:Hg; [|reflexivity].
  apply (get_In keq_string_spec) in Hg.
  rewrite Forall_forall in Hall. apply Hall.
  unfold PyDict.values. apply in_map_iff. now exists (k, v).
Qed.

Lemma all_zero_sum (d : PyDict.t string Z) :
  Forall (fun v => v = 0) (PyDict.values d) -> sum_values d = 0.
Proof.
  unfold sum_values. induction 1 as [|v vs Hv _ IH]; simpl; lia.
Qed.

Lemma zero_per_rep_distinct (reps : list Rep) :
  NoDup (map rep_name reps) ->
  zero_per_rep reps = map (fun r => (rep_name r, 0)) reps.
Proof.
  unfold zero_per_rep.
  assert (Hgen : forall d : PyDict.t string Z,
    NoDup (PyDict.keys d ++ map rep_name reps) ->
    fold_left (fun d rep => PyDict.set (rep_name rep) 0 d) reps d
    = (d ++ map (fun r => (rep_name r, 0)) reps)%list).
  { induction reps as [|r rest IH]; intros d Hnd; simpl.
    - now rewrite app_nil_r.
    - assert (Hfresh : PyDict.get (rep_name r) d = None).
      { apply (get_None_keys keq_string_spec).
        simpl in Hnd. apply NoDup_remove_2 in Hnd.
        intro Hin. apply Hnd. apply in_or_app. now left. }
      rewrite (set_fresh _ _ _ Hfresh), IH.
      + now rewrite <- app_assoc.
      + unfold PyDict.keys in *. rewrite map_app. simpl.
        rewrite <- app_assoc. exact Hnd. }
  intro Hnd. now rewrite Hgen.
Qed.

(** The report exists exactly when every assigned lead names an agent of
    the roster; otherwise the call raises [KeyError] for the name of such a
    lead's agent. *)
Theorem report_performance_returns_iff (s : State) :
  (succeeded (fst (report_performance s)) = true <->
   forall k l r, In (k, l) (LEADS s) -> assigned_to l = Some r ->
                 In (rep_name r) (map rep_name (SALES_REPS s))) /\
  (forall e : PyErr,
      fst (report_performance s) = Raise e ->
      exists k l r,
        In (k, l) (LEADS s) /\ assigned_to l = Some r /\
        ~ In (rep_name r) (map rep_name (SALES_REPS s)) /\
        e = KeyError (VStr (rep_name r))).
Proof.
  assert (Hval : forall l, In l (PyDict.values (LEADS s)) ->
                           exists k, In (k, l) (LEADS s)).
  { intros l Hl. unfold PyDict.values in Hl. apply in_map_iff in Hl.
    destruct Hl as [[k l'] [Heq Hin]]. simpl in Heq. subst l'. now exists k. }
  unfold_op.
  destruct (count_leads (PyDict.values (LEADS s)) _) as [c|e0] eqn:Hc; simpl.
  - split; [|discriminate]. split; [|reflexivity]. intros _ k l r Hin Ha.
    destruct (count_leads_rep_keys _ _ _ Hc) as [_ Hall]. simpl in Hall.
    apply zero_per_rep_get. apply (Hall l r); [|exact Ha].
    unfold PyDict.values. apply in_map_iff. now exists (k, l).
  - destruct (count_leads_raises _ _ _ Hc) as [l [rep [Hin [Ha [Hg He]]]]].
    simpl in Hg. destruct (Hval l Hin) as [k Hk].
    assert (Hout : ~ In (rep_name rep) (map rep_name (SALES_REPS s))).
    { intro Hn. apply zero_per_rep_get in Hn. contradiction. }
    split.
    + split; [discriminate|]. intro Hall. exfalso. apply Hout.
      now apply (Hall k l rep).
    + intros e [= <-]. now exists k, l, rep.
Qed.

Lemma report_performance_inv (s s' : State) (r : Report) :
  report_performance s = (Return r, s') ->
  s' = s /\
  exists c : Counts,
    count_leads (PyDict.values (LEADS s))
      {| by_source := []; by_score := [("MQL", 0); ("SQL", 0)];
         by_rep := zero_per_rep (SALES_REPS s) |} = Return c /\
    report_data r = mkReportData (PyDict.len (LEADS s)) (by_source c)
                      (by_score c) (by_rep c) /\
    report_markdown r = format_report_markdown (report_data r).
Proof.
  unfold_op.
  destruct (count_leads (PyDict.values (LEADS s)) _) as [c|e] eqn:Hc;
    [|discriminate].
  intros [= <- <-]. split; [reflexivity|]. exists c. now repeat split.
Qed.

(** In a report, the count under a source is the number of stored leads with
    that source, and the sources listed are those some stored lead has. *)
Theorem report_counts_by_source (s s' : State) (r : Report) :
  report_performance s = (Return r, s') ->
  forall k : string,
    PyDict.get_default k 0 (leads_by_source (report_data r))
      = count_by (has_source k) (PyDict.values (LEADS s)) /\
    (PyDict.get k (leads_by_source (report_data r)) <> None <->
     exists l, In l (PyDict.values (LEADS s)) /\ source l = k).
Proof.
  intros Hrun k.
  destruct (report_performance_inv _ _ _ Hrun) as [_ [c [Hc [Hdata _]]]].
  rewrite Hdata. simpl.
  destruct (count_leads_by_source _ _ _ Hc k) as [Hcnt Hkey].
  simpl in Hcnt, Hkey. split; [exact Hcnt|].
  rewrite Hkey. split; [intros [Hk|Hl]; [now contradiction Hk | exact Hl]|].
  intro Hl. now right.
Qed.

(** In a report, the score table has the two rows "MQL" and "SQL", in that
    order, each with the number of stored leads holding that score; a lead
    with no score, or another one, is in neither. *)
Theorem report_counts_by_score (s s' : State) (r : Report) :
  report_performance s = (Return r, s') ->
  leads_by_score (report_data r)
  = [("MQL", count_by (has_score "MQL") (PyDict.values (LEADS s)));
     ("SQL", count_by (has_score "SQL") (PyDict.values (LEADS s)))].
Proof.
  intro Hrun.
  destruct (report_performance_inv _ _ _ Hrun) as [_ [c [Hc [Hdata _]]]].
  rewrite Hdata. simpl.
  now rewrite (count_leads_by_score _
                 {| by_source := []; by_score := [("MQL", 0); ("SQL", 0)];
                    by_rep := zero_per_rep (SALES_REPS s) |}
                 c 0 0 eq_refl Hc).
Qed.

(** In a report, the agent table has one row per distinct name of the
    roster (the roster's names in order when no two agents share one), the
    count under a name is the number of stored leads assigned to an agent
    of that name, and the counts add up to the number of assigned leads. *)
Theorem report_counts_by_rep (s s' : State) (r : Report) :
  report_performance s = (Return r, s') ->
  PyDict.keys (leads_by_rep (report_data r))
    = PyDict.keys (zero_per_rep (SALES_REPS s)) /\
  (NoDup (map rep_name (SALES_REPS s)) ->
   PyDict.keys (leads_by_rep (report_data r)) = map rep_name (SALES_REPS s)) /\
  (forall k : string,
      PyDict.get_default k 0 (leads_by_rep (report_data r))
      = count_by (assigned_name k) (PyDict.values (LEADS s))) /\
  sum_values (leads_by_rep (report_data r))
    = count_by is_assigned (PyDict.values (LEADS s)).
Proof.
  intro Hrun.
  destruct (report_performance_inv _ _ _ Hrun) as [_ [c [Hc [Hdata _]]]].
  rewrite Hdata. simpl.
  destruct (count_leads_rep_keys _ _ _ Hc) as [Hkeys _]. simpl in Hkeys.
  destruct (count_leads_by_rep _ _ _ Hc) as [Hsum Hcnt]. simpl in Hsum, Hcnt.
  split; [exact Hkeys|]. split; [|split].
  - intro Hnd. rewrite Hkeys, (zero_per_rep_distinct _ Hnd).
    unfold PyDict.keys. rewrite map_map. now apply map_ext.
  - intro k. rewrite Hcnt.
    now rewrite (all_zero_get_default _ k (zero_per_rep_zero (SALES_REPS s))).
  - rewrite Hsum. now rewrite (all_zero_sum _ (zero_per_rep_zero (SALES_REPS s))).
Qed.

(** ** Round-robin fairness *)

Lemma div_step (m y : Z) :
  0 < m -> y / m - (y - 1) / m = if y mod m =? 0 then 1 else 0.
Proof.
  intro Hm. destruct (Z.eqb_spec (y mod m) 0) as [Hz|Hnz];
    Z.div_mod_to_equations; nia.
Qed.

Lemma mod_shift (m x j : Z) :
  0 < m -> 0 <= j < m -> ((x - j) mod m =? 0) = (x mod m =? j).
Proof.
  intros Hm Hj.
  pose proof (Z.mod_pos_bound x m Hm) as Hr.
  rewrite Zminus_mod, (Z.mod_small j m Hj).
  destruct (Z.eqb_spec (x mod m) j) as [He|Hne].
  - now rewrite He, Z.sub_diag, Zmod_0_l.
  - apply Z.eqb_neq.
    destruct (Z_lt_le_dec (x mod m) j) as [Hlt|Hge].
    + rewrite <- (Z_mod_plus_full (x mod m - j) 1 m).
      rewrite Z.mod_small; lia.
    + rewrite Z.mod_small; lia.
Qed.

Lemma turns_at_formula (m c j : Z) (n : nat) :
  0 < m -> 0 <= j < m ->
  turns_at m c j n = (c + Z.of_nat n - 1 - j) / m - (c - 1 - j) / m.
Proof.
  intros Hm Hj. unfold turns_at. induction n as [|n IH].
  - simpl. replace (c + 0 - 1 - j) with (c - 1 - j) by lia. lia.
  - rewrite seq_S, filter_app, length_app, Nat2Z.inj_add, IH. simpl filter.
    pose proof (div_step m (c + Z.of_nat n - j) Hm) as Hstep.
    rewrite (mod_shift m (c + Z.of_nat n) j Hm Hj) in Hstep.
    replace (c + Z.of_nat (S n) - 1 - j) with (c + Z.of_nat n - j) by lia.
    replace (c + Z.of_nat n - 1 - j) with (c + Z.of_nat n - j - 1) by lia.
    destruct ((c + Z.of_nat n) mod m =? j); simpl List.length; lia.
Qed.

(** Any index gets its share of the turns, rounded down or up. *)
Lemma turns_at_bounds (m c j : Z) (n : nat) :
  0 < m -> 0 <= j < m ->
  Z.of_nat n / m <= turns_at m c j n <= (Z.of_nat n + m - 1) / m.
Proof.
  intros Hm Hj. rewrite (turns_at_formula m c j n Hm Hj).
  Z.div_mod_to_equations. nia.
Qed.

Lemma rep_eqb_spec (a b : Rep) : rep_eqb a b = true <-> a = b.
Proof.
  unfold rep_eqb. rewrite !andb_true_iff, Z.eqb_eq, !String.eqb_eq.
  destruct a, b; simpl. split.
  - intros [[[-> ->] ->] ->]. reflexivity.
  - intros [= -> -> -> ->]. now repeat split.
Qed.

Lemma length_filter_map {A B : Type} (p : B -> bool) (f : A -> B)
    (l : list A) :
  List.length (filter p (map f l))
  = List.length (filter (fun a => p (f a)) l).
Proof.
  induction l as [|a rest IH]; simpl; [reflexivity|].
  destruct (p (f a)); simpl; now rewrite IH.
Qed.

Lemma count_assigned_rep_turns (reps : list Rep) (r : Rep) (c : Z) (n j : nat)
    (leads : list Lead) :
  NoDup reps -> nth_error reps j = Some r ->
  map assigned_to leads = round_robin reps c n ->
  count_by (assigned_rep r) leads
  = turns_at (Z.of_nat (List.length reps)) c (Z.of_nat j) n.
Proof.
  intros Hnd Hj Hmap. unfold count_by, turns_at.
  assert (Hlt : (j < List.length reps)%nat)
    by (apply nth_error_Some; congruence).
  set (m := Z.of_nat (List.length reps)).
  assert (Hm : 0 < m) by (unfold m; lia).
  replace (filter (assigned_rep r) leads)
    with (filter (fun l => match assigned_to l with
                           | Some rep => rep_eqb rep r
                           | None => false
                           end) leads) by reflexivity.
  rewrite <- (length_filter_map
                (fun a : option Rep => match a with
                                       | Some rep => rep_eqb rep r
                                       | None => false
                                       end) assigned_to leads).
  rewrite Hmap. unfold round_robin. fold m. rewrite length_filter_map.
  do 2 f_equal. apply filter_ext. intro i.
  pose proof (Z.mod_pos_bound (c + Z.of_nat i) m Hm) as Hb.
  set (x := (c + Z.of_nat i) mod m) in *.
  assert (Hx : (Z.to_nat x < List.length reps)%nat) by (unfold m in Hb; lia).
  destruct (nth_error reps (Z.to_nat x)) as [rep|] eqn:Hn;
    [|apply nth_error_None in Hn; lia].
  destruct (Z.eqb_spec x (Z.of_nat j)) as [He|Hne].
  - apply rep_eqb_spec. rewrite He, Nat2Z.id in Hn. congruence.
  - destruct (rep_eqb rep r) eqn:Er; [|reflexivity].
    apply rep_eqb_spec in Er. subst rep. exfalso. apply Hne.
    rewrite NoDup_nth_error in Hnd.
    rewrite <- (Hnd (Z.to_nat x) j Hx); [lia | congruence].
Qed.

Lemma route_all_stored_distinct (ids : list Z) :
  forall (s s' : State) (leads : list Lead),
    NoDup ids ->
    route_all ids s = (Return leads, s') ->
    map (fun lead_id => PyDict.get lead_id (LEADS s')) ids = map Some leads.
Proof.
  induction ids as [|i0 rest IH]; intros s s' leads Hnd Hrun.
  - now inversion Hrun.
  - destruct (route_all_cons _ _ _ _ _ Hrun)
      as [l [s1 [ls [Hone [Hrest ->]]]]].
    inversion Hnd as [|x xs Hnotin Hnd']; subst.
    simpl. rewrite (IH _ _ _ Hnd' Hrest). f_equal.
    rewrite (route_all_other _ _ _ _ Hrest i0 Hnotin).
    now destruct (route_lead_returns _ _ _ _ Hone) as [_ [_ [_ [_ [_ Hst]]]]].
Qed.

Lemma stored_with_rep_leads (r : Rep) (s : State) (ids : list Z)
    (leads : list Lead) :
  map (fun lead_id => PyDict.get lead_id (LEADS s)) ids = map Some leads ->
  stored_with_rep r s ids = count_by (assigned_rep r) leads.
Proof.
  intro Hmap. unfold stored_with_rep, count_by.
  rewrite <- (length_filter_map
                (fun o : option Lead => match o with
                                        | Some l => assigned_rep r l
                                        | None => false
                                        end)
                (fun lead_id => PyDict.get lead_id (LEADS s)) ids).
  rewrite Hmap, length_filter_map. reflexivity.
Qed.

(** Over a batch of [route_lead] calls on pairwise different leads that all
    return, with a roster that lists no agent twice, the store ends up
    holding the returned leads under their ids, and each agent has its
    share of them: the number of calls divided by the size of the roster,
    rounded down or up. *)
Theorem route_all_fair (ids : list Z) (s s' : State) (leads : list Lead)
    (r : Rep) :
  route_all ids s = (Return leads, s') ->
  NoDup ids ->
  NoDup (SALES_REPS s) ->
  In r (SALES_REPS s) ->
  map (fun lead_id => PyDict.get lead_id (LEADS s')) ids = map Some leads /\
  Z.of_nat (List.length ids) / Z.of_nat (List.length (SALES_REPS s))
    <= stored_with_rep r s' ids
    <= (Z.of_nat (List.length ids) + Z.of_nat (List.length (SALES_REPS s)) - 1)
       / Z.of_nat (List.length (SALES_REPS s)).
Proof.
  intros Hrun Hids Hnd Hin.
  pose proof (route_all_stored_distinct ids s s' leads Hids Hrun) as Hst.
  split; [exact Hst|].
  rewrite (stored_with_rep_leads r s' ids leads Hst).
  destruct (route_all_returns ids s s' leads Hrun) as [_ [_ [Hmap _]]].
  destruct (In_nth_error _ _ Hin) as [j Hj].
  assert (Hlt : (j < List.length (SALES_REPS s))%nat)
    by (apply nth_error_Some; congruence).
  rewrite (count_assigned_rep_turns _ r _ _ j leads Hnd Hj Hmap).
  apply turns_at_bounds; lia.
Qed.

(** ** Notifications *)

Lemma run_op_stdout (o : Op) (s : State) :
  exists lines : list string,
    stdout (run_op o s) = (stdout s ++ lines)%list /\
    Z.of_nat (List.length lines) = route_counter (run_op o s) - route_counter s.
Proof.
  destruct o as [t n e src x|i|i|i|]; unfold run_op.
  - exists []. rewrite ingest_lead_eq. simpl. rewrite app_nil_r. split; [reflexivity | lia].
  - exists []. destruct (PyDict.get i (LEADS s)) as [lead|] eqn:Hg.
    + rewrite (enrich_lead_present s i lead Hg). simpl.
      rewrite app_nil_r. split; [reflexivity | lia].
    + rewrite (enrich_lead_missing s i Hg). simpl.
      rewrite app_nil_r. split; [reflexivity | lia].
  - exists []. destruct (PyDict.get i (LEADS s)) as [lead|] eqn:Hg.
    + rewrite (score_lead_present s i lead Hg). simpl.
      rewrite app_nil_r. split; [reflexivity | lia].
    + rewrite (score_lead_missing s i Hg). simpl.
      rewrite app_nil_r. split; [reflexivity | lia].
  - destruct (PyDict.get i (LEADS s)) as [lead|] eqn:Hg.
    + destruct (nil_or_not (SALES_REPS s)) as [Hr|Hne].
      * exists []. rewrite (route_lead_empty_roster s i lead Hg Hr). simpl.
        rewrite app_nil_r. split; [reflexivity | lia].
      * destruct (route_lead_present s i lead Hg Hne) as [rep [_ Heq]].
        rewrite Heq. simpl. eexists. split; [reflexivity | simpl; lia].
    + exists []. rewrite (route_lead_missing s i Hg). simpl.
      rewrite app_nil_r. split; [reflexivity | lia].
  - exists []. rewrite report_performance_state.
    rewrite app_nil_r. split; [reflexivity | simpl; lia].
Qed.

(** Over any run, what was printed is kept and one line is added for each
    step of the cursor; from the state at import, the number of notification
    lines is the cursor. *)
Theorem notifications_follow_cursor (ops : list Op) :
  (forall s : State,
      exists lines : list string,
        stdout (run_ops ops s) = (stdout s ++ lines)%list /\
        Z.of_nat (List.length lines)
          = route_counter (run_ops ops s) - route_counter s) /\
  Z.of_nat (List.length (stdout (run_ops ops initial_state)))
    = route_counter (run_ops ops initial_state).
Proof.
  assert (Hgen : forall s : State,
    exists lines : list string,
      stdout (run_ops ops s) = (stdout s ++ lines)%list /\
      Z.of_nat (List.length lines)
        = route_counter (run_ops ops s) - route_counter s).
  { induction ops as [|o rest IH]; intro s.
    - exists []. simpl. rewrite app_nil_r. split; [reflexivity | lia].
    - change (run_ops (o :: rest) s) with (run_ops rest (run_op o s)).
      destruct (run_op_stdout o s) as [l1 [H1 Hn1]].
      destruct (IH (run_op o s)) as [l2 [H2 Hn2]].
      exists (l1 ++ l2)%list. rewrite H2, H1, <- app_assoc, length_app.
      split; [reflexivity | lia]. }
  split; [exact Hgen|].
  destruct (Hgen initial_state) as [lines [Hout Hn]].
  rewrite Hout. simpl in *. lia.
Qed.

(** ** Stored leads over time *)

Lemma lead_kept_refl (l : Lead) : lead_kept l l.
Proof. unfold lead_kept. now repeat split. Qed.

(** In a reachable state, one call leaves every stored lead under its key,
    with the fields set at ingestion untouched, no key of [extra] removed
    and a score that was set still set. *)
Theorem stored_lead_kept (s : State) :
  reachable s ->
  forall (o : Op) (k : Z) (l : Lead),
    PyDict.get k (LEADS s) = Some l ->
    exists l' : Lead,
      PyDict.get k (LEADS (run_op o s)) = Some l' /\ lead_kept l l'.
Proof.
  intros Hs o k l Hgk.
  destruct (reachable_store_ok s Hs) as [Hkeys _].
  assert (Hupd : forall i li li',
    PyDict.get i (LEADS s) = Some li -> lead_kept li li' ->
    exists l', PyDict.get k (PyDict.set i li' (LEADS s)) = Some l' /\
               lead_kept l l').
  { intros i li li' Hgi Hkept. destruct (Z.eq_dec i k) as [->|Hik].
    - exists li'. rewrite (get_set_same keq_Z_spec). split; [reflexivity|].
      rewrite Hgk in Hgi. now inversion Hgi; subst li.
    - exists l. rewrite (get_set_other keq_Z_spec) by exact Hik.
      split; [exact Hgk | apply lead_kept_refl]. }
  destruct o as [t n e src x|i|i|i|]; unfold run_op.
  - rewrite ingest_lead_eq. cbn [snd LEADS].
    pose proof (keys_in_sequence_fresh s Hkeys) as Hfresh.
    exists l. split; [|apply lead_kept_refl].
    rewrite (get_set_other keq_Z_spec); [exact Hgk | congruence].
  - destruct (PyDict.get i (LEADS s)) as [li|] eqn:Hgi.
    + rewrite (enrich_lead_present s i li Hgi). cbn [snd LEADS].
      apply (Hupd i li); [exact Hgi|].
      unfold lead_kept. simpl. repeat split; try tauto.
      intros key Hkey. now repeat apply get_set_keeps.
    + rewrite (enrich_lead_missing s i Hgi). exists l.
      split; [exact Hgk | apply lead_kept_refl].
  - destruct (PyDict.get i (LEADS s)) as [li|] eqn:Hgi.
    + rewrite (score_lead_present s i li Hgi). cbn [snd LEADS].
      apply (Hupd i li); [exact Hgi|].
      unfold lead_kept. simpl. repeat split; try tauto.
      destruct (_ && _)%bool; discriminate.
    + rewrite (score_lead_missing s i Hgi). exists l.
      split; [exact Hgk | apply lead_kept_refl].
  - destruct (PyDict.get i (LEADS s)) as [li|] eqn:Hgi.
    + destruct (nil_or_not (SALES_REPS s)) as [Hr|Hne].
      * rewrite (route_lead_empty_roster s i li Hgi Hr). exists l.
        split; [exact Hgk | apply lead_kept_refl].
      * destruct (route_lead_present s i li Hgi Hne) as [rep [_ Heq]].
        rewrite Heq. cbn [snd LEADS].
        apply (Hupd i li); [exact Hgi|].
        unfold lead_kept. simpl. now repeat split.
    + rewrite (route_lead_missing s i Hgi). exists l.
      split; [exact Hgk | apply lead_kept_refl].
  - rewrite report_performance_state. exists l.
    split; [exact Hgk | apply lead_kept_refl].
Qed.

Lemma run_ops_length (ops : list Op) :
  forall s : State,
    store_ok s ->
    List.length (LEADS (run_ops ops s))
    = (List.length (LEADS s) + ingest_calls ops)%nat.
Proof.
  induction ops as [|o rest IH]; intros s Hs.
  - simpl. unfold ingest_calls. simpl. lia.
  - change (run_ops (o :: rest) s) with (run_ops rest (run_op o s)).
    rewrite (IH _ (store_ok_step o s Hs)).
    pose proof (run_op_keys o s Hs) as Hk.
    apply (f_equal (@List.length _)) in Hk. unfold PyDict.keys in Hk.
    rewrite length_map in Hk. rewrite Hk. unfold ingest_calls.
    destruct o; simpl; rewrite ?length_app, length_map; simpl; lia.
Qed.

(** After any run from the state at import, the store holds one lead per
    [ingest_lead] call of the run, under the keys 1, 2, ... in that order,
    and each lead carries its key as its id. *)
Theorem store_after_run (ops : list Op) :
  PyDict.len (LEADS (run_ops ops initial_state)) = Z.of_nat (ingest_calls ops) /\
  PyDict.keys (LEADS (run_ops ops initial_state))
    = map Z.of_nat (seq 1 (ingest_calls ops)) /\
  (forall k l, In (k, l) (LEADS (run_ops ops initial_state)) -> id l = k).
Proof.
  pose proof (run_ops_store_ok ops _ store_ok_initial) as [Hkeys [Hids _]].
  pose proof (run_ops_length ops _ store_ok_initial) as Hlen.
  simpl in Hlen. unfold PyDict.len. rewrite Hkeys, Hlen.
  split; [reflexivity|]. split; [reflexivity | exact Hids].
Qed.

(** ** Which calls return *)

(** [enrich_lead] and [score_lead] return exactly on the ids the store
    holds, and so does [route_lead] as long as the roster is not empty. *)
Theorem lifecycle_returns_iff_present (s : State) (lead_id : Z) :
  SALES_REPS s <> [] ->
  succeeded (fst (enrich_lead lead_id s)) = PyDict.contains lead_id (LEADS s) /\
  succeeded (fst (score_lead lead_id s)) = PyDict.contains lead_id (LEADS s) /\
  succeeded (fst (route_lead lead_id s)) = PyDict.contains lead_id (LEADS s).
Proof.
  intro Hne. unfold PyDict.contains.
  destruct (PyDict.get lead_id (LEADS s)) as [lead|] eqn:Hg.
  - rewrite (enrich_lead_present s lead_id lead Hg).
    rewrite (score_lead_present s lead_id lead Hg).
    destruct (route_lead_present s lead_id lead Hg Hne) as [rep [_ Heq]].
    now rewrite Heq.
  - rewrite (enrich_lead_missing s lead_id Hg).
    rewrite (score_lead_missing s lead_id Hg).
    now rewrite (route_lead_missing s lead_id Hg).
Qed.

(** ** Enrichment, then scoring *)

(** Once a lead has been enriched, its score depends on its source alone:
    "SQL" for "web_form", "MQL" for anything else, whatever company its
    [extra] named before. *)
Theorem score_after_enrich (s : State) (lead_id : Z) (lead : Lead) :
  PyDict.get lead_id (LEADS s) = Some lead ->
  exists (l1 : Lead) (s1 : State) (l2 : Lead) (s2 : State),
    enrich_lead lead_id s = (Return l1, s1) /\
    score_lead lead_id s1 = (Return l2, s2) /\
    PyDict.get lead_id (LEADS s2) = Some l2 /\
    score l2 = Some (if String.eqb (source lead) "web_form"
                     then "SQL" else "MQL").
Proof.
  intro Hg.
  pose proof (enrich_lead_present s lead_id lead Hg) as Hen. cbv zeta in Hen.
  set (l1 := set_extra (PyDict.update (extra lead) (enrichment_for lead)) lead)
    in *.
  match type of Hen with _ = (_, ?st) => set (s1 := st) in * end.
  assert (Hg1 : PyDict.get lead_id (LEADS s1) = Some l1)
    by apply (get_set_same keq_Z_spec).
  pose proof (score_lead_present s1 lead_id l1 Hg1) as Hsc. cbv zeta in Hsc.
  assert (Hco : PyDict.get_default "company" (VStr "") (extra l1)
                = VStr "Acme Corp").
  { unfold PyDict.get_default. unfold l1. cbn [extra set_extra].
    pose proof (update_enrichment_get lead (extra lead)) as Hall.
    cbv zeta in Hall. destruct Hall as [Hc _]. now rewrite Hc. }
  rewrite Hco in Hsc.
  change (py_eq_str (VStr "Acme Corp") "Acme Corp") with true in Hsc.
  rewrite andb_true_l in Hsc.
  eexists l1, s1, _, _. split; [exact Hen|]. split; [exact Hsc|].
  split; [apply (get_set_same keq_Z_spec) | reflexivity].
Qed.

(** ** The pipeline *)

Lemma bind_Return {A B : Type} (c : M A) (k : A -> M B) (s s' : State) (a : A) :
  c s = (Return a, s') -> bind c k s = k a s'.
Proof. intro Hc. unfold bind. now rewrite Hc. Qed.

Lemma bind_Raise {A B : Type} (c : M A) (k : A -> M B) (s s' : State)
    (e : PyErr) :
  c s = (Raise e, s') -> bind c k s = (Raise e, s').
Proof. intro Hc. unfold bind. now rewrite Hc. Qed.

Lemma process_lead_and_report_eq (s : State) (t : Z) (n e src : string) :
  SALES_REPS s <> [] ->
  exists rep : Rep,
    nth_error (SALES_REPS s)
      (Z.to_nat (route_counter s mod Z.of_nat (List.length (SALES_REPS s))))
      = Some rep /\
    let lid := PyDict.len (LEADS s) + 1 in
    let lead :=
      mkLead lid t n e src
        (enrichment_for (mkLead lid t n e src [] "new" None None))
        "assigned"
        (Some (if String.eqb src "web_form" then "SQL" else "MQL"))
        (Some rep) in
    let s4 :=
      {| LEADS := PyDict.set lid lead (LEADS s);
         SALES_REPS := SALES_REPS s;
         route_counter := route_counter s + 1;
         stdout := (stdout s ++
                    [("[Notification] Lead " ++ str_of_int lid
                      ++ " assigned to " ++ rep_name rep
                      ++ " (email: " ++ e ++ ")")%string])%list |} in
    process_lead_and_report t n e src s =
      match fst (report_performance s4) with
      | Return r =>
          (Return {| process_diagram :=
                       process_diagram_text n e src lead lead lead;
                     process_report_markdown := report_markdown r;
                     process_report_data := report_data r |}, s4)
      | Raise err => (Raise err, s4)
      end.
Proof.
  intro Hne.
  destruct (list_getitem_mod (SALES_REPS s) (route_counter s) Hne)
    as [rep [Hnth _]].
  exists rep. split; [exact Hnth|]. intros lid lead s4.
  unfold process_lead_and_report.
  rewrite (bind_Return _ _ _ _ _ (ingest_lead_eq s t n e src None)).
  fold lid. cbn [id extra_or_empty].
  set (lead0 := mkLead lid t n e src [] "new" None None) in *.
  set (s1 := {| LEADS := PyDict.set lid lead0 (LEADS s);
                SALES_REPS := SALES_REPS s;
                route_counter := route_counter s;
                stdout := stdout s |}).
  assert (Hg1 : PyDict.get lid (LEADS s1) = Some lead0)
    by apply (get_set_same keq_Z_spec).
  rewrite (bind_Return _ _ _ _ _ (enrich_lead_present s1 lid lead0 Hg1)).
  set (lead1 := set_extra (PyDict.update (extra lead0) (enrichment_for lead0))
                  lead0).
  match goal with
  | |- bind _ _ ?st = _ => set (s2 := st)
  end.
  assert (Hg2 : PyDict.get lid (LEADS s2) = Some lead1)
    by apply (get_set_same keq_Z_spec).
  rewrite (bind_Return _ _ _ _ _ (score_lead_present s2 lid lead1 Hg2)).
  match goal with
  | |- bind _ _ ?st = _ => set (s3 := st)
  end.
  set (lead2 := set_score
                  (Some (if String.eqb src "web_form" then "SQL" else "MQL"))
                  lead1).
  assert (Hg3 : PyDict.get lid (LEADS s3) = Some lead2)
    by apply (get_set_same keq_Z_spec).
  destruct (route_lead_present s3 lid lead2 Hg3 Hne) as [rep' [Hnth' Hroute]].
  assert (Hrep : rep' = rep) by (simpl in Hnth'; congruence). subst rep'.
  rewrite (bind_Return _ _ _ _ _ Hroute).
  assert (Hs4 : {| LEADS := PyDict.set lid
                              (set_status "assigned"
                                 (set_assigned_to (Some rep) lead2)) (LEADS s3);
                   SALES_REPS := SALES_REPS s3;
                   route_counter := route_counter s3 + 1;
                   stdout := (stdout s3 ++
                              [("[Notification] Lead " ++ str_of_int lid
                                ++ " assigned to " ++ rep_name rep
                                ++ " (email: " ++ email lead2 ++ ")")%string])%list
                |} = s4).
  { unfold s4, s3, s2, s1. simpl. now rewrite !(set_set keq_Z_spec). }
  rewrite Hs4.
  change (set_status "assigned" (set_assigned_to (Some rep) lead2)) with lead.
  unfold bind.
  pose proof (report_performance_state s4) as Hst.
  destruct (report_performance s4) as [[r|err] s5]; simpl in Hst; subst s5;
    reflexivity.
Qed.

(** With a roster that is not empty, the first four stages of the pipeline
    go through in any state: the lead just ingested is the one enriched,
    scored and routed, and the call ends as [report_performance] does on the
    state they leave. *)
Theorem process_lead_and_report_stages (s : State) (t : Z) (n e src : string) :
  SALES_REPS s <> [] ->
  exists rep : Rep,
    nth_error (SALES_REPS s)
      (Z.to_nat (route_counter s mod Z.of_nat (List.length (SALES_REPS s))))
      = Some rep /\
    let lid := PyDict.len (LEADS s) + 1 in
    let lead :=
      mkLead lid t n e src
        (enrichment_for (mkLead lid t n e src [] "new" None None))
        "assigned"
        (Some (if String.eqb src "web_form" then "SQL" else "MQL"))
        (Some rep) in
    let s4 :=
      {| LEADS := PyDict.set lid lead (LEADS s);
         SALES_REPS := SALES_REPS s;
         route_counter := route_counter s + 1;
         stdout := (stdout s ++
                    [("[Notification] Lead " ++ str_of_int lid
                      ++ " assigned to " ++ rep_name rep
                      ++ " (email: " ++ e ++ ")")%string])%list |} in
    process_lead_and_report t n e src s =
      match fst (report_performance s4) with
      | Return r =>
          (Return {| process_diagram :=
                       process_diagram_text n e src lead lead lead;
                     process_report_markdown := report_markdown r;
                     process_report_data := report_data r |}, s4)
      | Raise err => (Raise err, s4)
      end.
Proof. apply process_lead_and_report_eq. Qed.

(** The counts of a report, read off the store. *)
Lemma report_counts (s s' : State) (r : Report) :
  report_performance s = (Return r, s') ->
  total_leads (report_data r) = PyDict.len (LEADS s) /\
  (forall k : string,
      PyDict.get_default k 0 (leads_by_source (report_data r))
      = count_by (has_source k) (PyDict.values (LEADS s))) /\
  leads_by_score (report_data r)
    = [("MQL", count_by (has_score "MQL") (PyDict.values (LEADS s)));
       ("SQL", count_by (has_score "SQL") (PyDict.values (LEADS s)))] /\
  (forall k : string,
      PyDict.get_default k 0 (leads_by_rep (report_data r))
      = count_by (assigned_name k) (PyDict.values (LEADS s))) /\
  report_markdown r = format_report_markdown (report_data r).
Proof.
  intro Hrun.
  destruct (report_performance_inv _ _ _ Hrun) as [_ [c [Hc [Hdata Hmd]]]].
  rewrite Hdata. simpl. split; [reflexivity|]. split; [|split; [|split]].
  - intro k. now destruct (count_leads_by_source _ _ _ Hc k) as [Hcnt _].
  - now rewrite (count_leads_by_score _
                   {| by_source := []; by_score := [("MQL", 0); ("SQL", 0)];
                      by_rep := zero_per_rep (SALES_REPS s) |}
                   c 0 0 eq_refl Hc).
  - intro k. destruct (count_leads_by_rep _ _ _ Hc) as [_ Hcnt].
    rewrite Hcnt. simpl.
    now rewrite (all_zero_get_default _ k (zero_per_rep_zero (SALES_REPS s))).
  - now rewrite Hmd, Hdata.
Qed.

(** In a reachable state the pipeline returns.  Against a report taken just
    before it, the report it returns has one more lead in total, one more
    under the new lead's source, one more under "SQL" if that source is
    "web_form" and under "MQL" otherwise, one more under the name of the
    agent the cursor pointed at, and every other count as it was. *)
Theorem process_lead_and_report_counts (s : State) (t : Z) (n e src : string) :
  reachable s ->
  exists (res : ProcessResult) (s' : State) (r0 : Report) (rep : Rep)
         (mql sql : Z),
    process_lead_and_report t n e src s = (Return res, s') /\
    report_performance s = (Return r0, s) /\
    nth_error (SALES_REPS s) (Z.to_nat (route_counter s mod 3)) = Some rep /\
    route_counter s' = route_counter s + 1 /\
    total_leads (process_report_data res) = total_leads (report_data r0) + 1 /\
    (forall k : string,
        PyDict.get_default k 0 (leads_by_source (process_report_data res))
        = PyDict.get_default k 0 (leads_by_source (report_data r0))
          + (if String.eqb k src then 1 else 0)) /\
    leads_by_score (report_data r0) = [("MQL", mql); ("SQL", sql)] /\
    leads_by_score (process_report_data res)
      = (if String.eqb src "web_form"
         then [("MQL", mql); ("SQL", sql + 1)]
         else [("MQL", mql + 1); ("SQL", sql)]) /\
    (forall k : string,
        PyDict.get_default k 0 (leads_by_rep (process_report_data res))
        = PyDict.get_default k 0 (leads_by_rep (report_data r0))
          + (if String.eqb k (rep_name rep) then 1 else 0)) /\
    process_report_markdown res
      = format_report_markdown (process_report_data res).
Proof.
  intro Hs.
  destruct (reachable_store_ok s Hs) as [Hkeys [_ [_ [Hroster Hreps]]]].
  assert (Hne : SALES_REPS s <> []) by (rewrite Hreps; discriminate).
  destruct (process_lead_and_report_eq s t n e src Hne) as [rep [Hnth Hrun]].
  cbv zeta in Hrun.
  set (lid := PyDict.len (LEADS s) + 1) in *.
  set (lead := mkLead lid t n e src
                 (enrichment_for (mkLead lid t n e src [] "new" None None))
                 "assigned"
                 (Some (if String.eqb src "web_form" then "SQL" else "MQL"))
                 (Some rep)) in *.
  match type of Hrun with
  | _ = match fst (report_performance ?st) with _ => _ end => set (s4 := st) in *
  end.
  pose proof (keys_in_sequence_fresh s Hkeys) as Hfresh. fold lid in Hfresh.
  assert (Hleads : LEADS s4 = (LEADS s ++ [(lid, lead)])%list)
    by (unfold s4; simpl; now rewrite (set_fresh _ _ _ Hfresh)).
  assert (Hok4 : assigned_in_roster s4).
  { unfold assigned_in_roster. rewrite Hleads. intros k l r Hin Ha.
    apply in_app_or in Hin. destruct Hin as [Hold|[[= <- <-]|[]]].
    - now apply (Hroster k l r).
    - simpl in Ha. inversion Ha; subst r. simpl.
      now apply nth_error_In in Hnth. }
  destruct (report_performance_returns s4 Hok4) as [r4 Hr4].
  destruct (report_performance_returns s Hroster) as [r0 Hr0].
  rewrite Hr4 in Hrun. cbn [fst] in Hrun.
  destruct (report_counts _ _ _ Hr4) as [Ht4 [Hsrc4 [Hsco4 [Hrep4 Hmd4]]]].
  destruct (report_counts _ _ _ Hr0) as [Ht0 [Hsrc0 [Hsco0 [Hrep0 _]]]].
  assert (Hvals : PyDict.values (LEADS s4)
                  = (PyDict.values (LEADS s) ++ [lead])%list)
    by (unfold PyDict.values; now rewrite Hleads, map_app).
  rewrite Hvals in *.
  assert (Hone : forall p, count_by p (PyDict.values (LEADS s) ++ [lead])
                           = count_by p (PyDict.values (LEADS s))
                             + (if p lead then 1 else 0)).
  { intro p. rewrite count_by_app, count_by_cons.
    change (count_by p []) with 0. lia. }
  eexists _, s4, r0, rep, _, _. split; [exact Hrun|]. split; [exact Hr0|].
  split; [rewrite Hreps in Hnth |- *; exact Hnth|]. split; [reflexivity|].
  cbn [process_report_data process_report_markdown].
  split; [|split; [|split; [exact Hsco0|split; [|split]]]].
  - rewrite Ht4, Ht0, Hleads. unfold PyDict.len. rewrite length_app.
    simpl List.length. lia.
  - intro k. rewrite Hsrc4, Hsrc0, Hone. unfold has_source. simpl source.
    now rewrite (String.eqb_sym src k).
  - rewrite Hsco4, !Hone. unfold has_score. simpl score.
    destruct (String.eqb src "web_form"); simpl; now rewrite !Z.add_0_r.
  - intro k. rewrite Hrep4, Hrep0, Hone.
    change (assigned_name k lead) with (String.eqb (rep_name rep) k).
    now rewrite (String.eqb_sym (rep_name rep) k).
  - exact Hmd4.
Qed.

(** ** The report document *)

Lemma append_assoc (a b c : string) : ((a ++ b) ++ c = a ++ (b ++ c))%string.
Proof. induction a as [|x a IH]; simpl; [reflexivity | now rewrite IH]. Qed.

Lemma table_rows_app (d : PyDict.t string Z) :
  forall md : string,
    table_rows d md
    = (md ++ fold_right (fun kv rows => table_row kv ++ rows) "" d)%string.
Proof.
  unfold table_rows.
  induction d as [|kv rest IH]; intro md; simpl.
  - induction md as [|x md IHmd]; simpl; [reflexivity | now rewrite <- IHmd].
  - change (md ++ "| " ++ fst kv ++ " | " ++ str_of_int (snd kv) ++ " |" ++ nl)%string
      with (md ++ table_row kv)%string.
    now rewrite IH, append_assoc.
Qed.

(** The document is the title and the total, then the three tables in the
    order source, score, agent, each with its heading and one row per item
    of its dict, in the dict's order. *)
Theorem format_report_markdown_tables (report : ReportData) :
  let rows := fold_right (fun kv rows => table_row kv ++ rows)%string "" in
  format_report_markdown report
  = ("# DealFlow Report" ++ nl ++ nl
     ++ "**Total Leads:** " ++ str_of_int (total_leads report) ++ nl ++ nl
     ++ "## Leads by Source" ++ nl
     ++ "| Source | Count |" ++ nl
     ++ "|--------|-------|" ++ nl
     ++ rows (leads_by_source report)
     ++ nl ++ "## Leads by Score" ++ nl
     ++ "| Score | Count |" ++ nl ++ "|-------|-------|" ++ nl
     ++ rows (leads_by_score report)
     ++ nl ++ "## Leads by Rep" ++ nl
     ++ "| Rep | Count |" ++ nl ++ "|-----|-------|" ++ nl
     ++ rows (leads_by_rep report))%string.
Proof.
  intro rows. unfold format_report_markdown.
  rewrite !table_rows_app. fold rows.
  repeat rewrite append_assoc. reflexivity.
Qed.

(** ** The profile URL *)

Lemma str_replace_char_app (old : ascii) (new a b : string) :
  str_replace_char old new (a ++ b)
  = (str_replace_char old new a ++ str_replace_char old new b)%string.
Proof.
  induction a as [|x a IH]; simpl; [reflexivity|].
  destruct (Ascii.eqb x old); rewrite IH; [now rewrite append_assoc | reflexivity].
Qed.

Lemma strip_idem (s : string) :
  str_replace_char " " "" (str_replace_char " " "" s)
  = str_replace_char " " "" s.
Proof.
  induction s as [|c s IH]; simpl; [reflexivity|].
  destruct (Ascii.eqb c " ") eqn:E; simpl; [exact IH|].
  now rewrite E, IH.
Qed.

(** The enrichment record does not tell apart names that differ only in
    their spaces: a name with a space in it, the name without that space
    and the name with all its spaces removed get the same record. *)
Theorem enrichment_ignores_spaces (l1 l2 : Lead) (a b : string) :
  name l1 = (a ++ " " ++ b)%string ->
  name l2 = (a ++ b)%string
  \/ name l2 = str_replace_char " " "" (name l1) ->
  enrichment_for l2 = enrichment_for l1.
Proof.
  intros H1 H2. unfold enrichment_for.
  assert (Hstrip : str_replace_char " " "" (name l2)
                   = str_replace_char " " "" (name l1)).
  { destruct H2 as [-> | ->]; [|apply strip_idem].
    rewrite H1, !str_replace_char_app. reflexivity. }
  now rewrite Hstrip.
Qed.

(** ** Calling an operation again *)

Lemma mod_succ_neq (c m : Z) : 2 <= m -> (c + 1) mod m <> c mod m.
Proof.
  intros Hm Heq.
  assert (H0 : 0 < m) by lia.
  pose proof (Z.mod_pos_bound c m H0) as Hb.
  rewrite Zplus_mod, (Z.mod_small 1 m) in Heq by lia.
  destruct (Z_lt_le_dec (c mod m + 1) m) as [Hlt|Hge].
  - rewrite Z.mod_small in Heq; lia.
  - replace (c mod m + 1) with m in Heq by lia.
    rewrite Z_mod_same_full in Heq. lia.
Qed.

(** [route_lead] does not look at whether the lead is assigned already: with
    two or more agents, none listed twice, a second call on the same lead
    returns too, moves the cursor once more, and replaces the agent by a
    different one. *)
Theorem route_lead_reassigns (s : State) (lead_id : Z) (lead : Lead) :
  PyDict.get lead_id (LEADS s) = Some lead ->
  NoDup (SALES_REPS s) ->
  (2 <= List.length (SALES_REPS s))%nat ->
  exists (l1 : Lead) (s1 : State) (l2 : Lead) (s2 : State),
    route_lead lead_id s = (Return l1, s1) /\
    route_lead lead_id s1 = (Return l2, s2) /\
    PyDict.get lead_id (LEADS s2) = Some l2 /\
    route_counter s2 = route_counter s + 2 /\
    assigned_to l1 <> None /\ assigned_to l2 <> None /\
    assigned_to l2 <> assigned_to l1.
Proof.
  intros Hg Hnd Hlen.
  assert (Hne : SALES_REPS s <> [])
    by (destruct (SALES_REPS s); [simpl in Hlen; lia | discriminate]).
  destruct (route_lead_present s lead_id lead Hg Hne) as [r1 [Hn1 Hrun1]].
  cbv zeta in Hrun1.
  set (l1 := set_status "assigned" (set_assigned_to (Some r1) lead)) in *.
  match type of Hrun1 with _ = (_, ?st) => set (s1 := st) in * end.
  assert (Hg1 : PyDict.get lead_id (LEADS s1) = Some l1)
    by apply (get_set_same keq_Z_spec).
  destruct (route_lead_present s1 lead_id l1 Hg1 Hne) as [r2 [Hn2 Hrun2]].
  cbv zeta in Hrun2. simpl in Hn2.
  eexists l1, s1, _, _. split; [exact Hrun1|]. split; [exact Hrun2|].
  split; [apply (get_set_same keq_Z_spec)|]. simpl.
  split; [lia|]. split; [discriminate|]. split; [discriminate|].
  intros [= Heq]. subst r2.
  set (m := Z.of_nat (List.length (SALES_REPS s))) in *.
  assert (Hm : 2 <= m) by (unfold m; lia).
  pose proof (Z.mod_pos_bound (route_counter s) m ltac:(lia)) as Hb1.
  rewrite NoDup_nth_error in Hnd.
  assert (Hidx : Z.to_nat ((route_counter s + 1) mod m)
                 = Z.to_nat (route_counter s mod m)).
  { apply Hnd; [|congruence].
    pose proof (Z.mod_pos_bound (route_counter s + 1) m ltac:(lia)).
    unfold m in *. lia. }
  pose proof (Z.mod_pos_bound (route_counter s + 1) m ltac:(lia)) as Hb2.
  apply (mod_succ_neq (route_counter s) m Hm). lia.
Qed.

(** Scoring a lead again changes nothing: the second call returns the same
    lead and leaves the same state. *)
Theorem score_lead_idempotent (s : State) (lead_id : Z) (lead : Lead) :
  PyDict.get lead_id (LEADS s) = Some lead ->
  exists (l1 : Lead) (s1 : State),
    score_lead lead_id s = (Return l1, s1) /\
    score_lead lead_id s1 = (Return l1, s1).
Proof.
  intro Hg.
  pose proof (score_lead_present s lead_id lead Hg) as Hrun. cbv zeta in Hrun.
  match type of Hrun with _ = (Return ?l, ?st) =>
    set (l1 := l) in *; set (s1 := st) in *
  end.
  exists l1, s1. split; [exact Hrun|].
  assert (Hg1 : PyDict.get lead_id (LEADS s1) = Some l1)
    by apply (get_set_same keq_Z_spec).
  rewrite (score_lead_present s1 lead_id l1 Hg1).
  unfold s1, l1. simpl. rewrite (set_set keq_Z_spec).
  unfold set_score. simpl. reflexivity.
Qed.

End DealFlow.

(** * Worked examples *)

Lemma absent_lead_raises_KeyError_witness :
  PyDict.get 7 (LEADS (example_state ascii_lower)) = None /\
  enrich_lead ascii_lower 7 (example_state ascii_lower) = (Raise (KeyError (VInt 7)), example_state ascii_lower) /\
  score_lead 7 (example_state ascii_lower) = (Raise (KeyError (VInt 7)), example_state ascii_lower) /\
  route_lead 7 (example_state ascii_lower) = (Raise (KeyError (VInt 7)), example_state ascii_lower).
Proof.
  split; [reflexivity|].
  apply (absent_lead_raises_KeyError ascii_lower (example_state ascii_lower) 7). reflexivity.
Defined.

Lemma score_lead_total_witness :
  PyDict.get 2 (LEADS (example_state ascii_lower)) <> None /\
  exists (lead' : Lead) (s' : State),
    score_lead 2 (example_state ascii_lower) = (Return lead', s') /\
    score lead' = Some "MQL".
Proof.
  split; [discriminate|].
  destruct (score_lead_total (example_state ascii_lower) 2
              (mkLead 2 101 "Bo Li" "bo@x.com" "referral"
                      [("company", VStr "Initech")] "assigned" None (Some Bob))
              eq_refl)
    as [lead' [s' [Hrun [_ [Hsc _]]]]].
  exists lead', s'. split; [exact Hrun | exact Hsc].
Defined.

Lemma enrich_lead_idempotent_witness :
  PyDict.get 2 (LEADS (example_state ascii_lower)) <> None /\
  exists (lead1 : Lead) (s1 : State),
    enrich_lead ascii_lower 2 (example_state ascii_lower) = (Return lead1, s1) /\
    PyDict.get 2 (LEADS s1) = Some lead1 /\
    enrich_lead ascii_lower 2 s1 = (Return lead1, s1) /\
    PyDict.get "company" (extra lead1) = Some (VStr "Acme Corp") /\
    PyDict.get "linkedin" (extra lead1) =
      Some (VStr "https://linkedin.com/in/boli").
Proof.
  split; [discriminate|].
  destruct (enrich_lead_idempotent ascii_lower (example_state ascii_lower) 2
              (mkLead 2 101 "Bo Li" "bo@x.com" "referral"
                      [("company", VStr "Initech")] "assigned" None (Some Bob))
              eq_refl)
    as [lead1 [s1 [Hrun [Hst [_ [Hagain [_ [_ [Hc [Hl _]]]]]]]]]].
  exists lead1, s1. repeat split; assumption.
Defined.

Lemma route_all_round_robin_witness :
  exists (leads : list Lead) (s' : State),
    route_all [1; 2; 3; 1; 2; 3; 1] (intake_state ascii_lower) = (Return leads, s') /\
    map assigned_to leads
      = [Some Alice; Some Bob; Some Carol; Some Alice; Some Bob; Some Carol;
         Some Alice] /\
    route_counter s' = 7 /\
    PyDict.get 1 (LEADS s') = nth_error leads 6.
Proof.
  destruct (route_all_succeeds [1; 2; 3; 1; 2; 3; 1] (intake_state ascii_lower))
    as [leads [s' Hrun]].
  - discriminate.
  - intros i Hi. simpl in Hi.
    destruct Hi as [<-|[<-|[<-|[<-|[<-|[<-|[<-|[]]]]]]]]; discriminate.
  - exists leads, s'. split; [exact Hrun|].
    destruct (route_all_round_robin _ _ _ _ Hrun)
      as [_ [_ [_ [Hlen [_ [Hstored Hseven]]]]]].
    destruct Hseven as [Hmap Hc]; try reflexivity.
    split; [exact Hmap|]. split; [exact Hc|].
    destruct (nth_error leads 6) as [lead|] eqn:Hl;
      [|apply nth_error_None in Hl; simpl in Hlen; lia].
    apply (Hstored 6%nat 1 lead eq_refl Hl). simpl. tauto.
Defined.

Lemma report_totals_consistent_witness :
  exists r : Report,
    report_performance (example_state ascii_lower) = (Return r, example_state ascii_lower) /\
    sum_values (leads_by_source (report_data r)) = 2 /\
    total_leads (report_data r) = 2 /\
    sum_values (leads_by_score (report_data r)) <= 2.
Proof.
  eexists. split; [vm_compute; reflexivity|].
  match goal with
  | |- context [report_data ?r] =>
      destruct (report_totals_consistent (example_state ascii_lower) (example_state ascii_lower) r eq_refl)
        as [Hsrc [Htot Hsco]]
  end.
  split; [rewrite Hsrc, Htot; reflexivity|].
  split; [rewrite Htot; reflexivity|].
  rewrite Htot in Hsco. exact Hsco.
Defined.

Lemma ingest_lead_fresh_witness :
  exists (lead : Lead) (s' : State),
    ingest_lead 102 "Cy Ng" "cy@x.com" "web_form" None (example_state ascii_lower)
      = (Return lead, s') /\
    id lead = 3 /\
    ~ In 3 (issued_ids ascii_lower example_ops initial_state) /\
    PyDict.keys (LEADS s') = [1; 2; 3].
Proof.
  destruct (ingest_lead_fresh ascii_lower example_ops 102 "Cy Ng" "cy@x.com" "web_form" None)
    as [Hrun [_ [_ [_ [Hid [_ [Hnot _]]]]]]].
  eexists. eexists. split; [exact Hrun|].
  split; [exact Hid|]. split; [exact Hnot | reflexivity].
Defined.

Lemma assignment_and_status_together_witness :
  reachable ascii_lower (example_state ascii_lower) /\
  (forall k l, In (k, l) (LEADS (example_state ascii_lower)) -> assignment_consistent l) /\
  exists l' : Lead,
    PyDict.get 1 (LEADS (run_op ascii_lower (Route 1) (example_state ascii_lower))) = Some l' /\
    assigned_to l' <> None /\ status l' = "assigned".
Proof.
  assert (Hr : reachable ascii_lower (example_state ascii_lower))
    by (apply run_ops_reachable, reachable_init).
  split; [exact Hr|].
  destruct (assignment_and_status_together ascii_lower (example_state ascii_lower) Hr) as [Hall Hstep].
  split; [exact Hall|].
  destruct (Hstep (Route 1) 1
              (mkLead 1 100 "Jane Doe" "jane@x.com" "web_form"
                 [("company", VStr "Acme Corp");
                  ("linkedin", VStr "https://linkedin.com/in/janedoe");
                  ("industry", VStr "Technology");
                  ("location", VStr "San Francisco, CA")]
                 "assigned" (Some "SQL") (Some Alice)) eq_refl)
    as [l' [Hget Hboth]].
  exists l'. split; [exact Hget | exact Hboth].
Defined.

Lemma report_performance_returns_iff_witness :
  succeeded (fst (report_performance (example_state ascii_lower))) = true /\
  exists k l r,
    In (k, l) (LEADS stale_assignment_state) /\ assigned_to l = Some r /\
    ~ In (rep_name r) (map rep_name (SALES_REPS stale_assignment_state)) /\
    KeyError (VStr "Dave") = KeyError (VStr (rep_name r)).
Proof.
  split.
  - apply (proj1 (report_performance_returns_iff (example_state ascii_lower))).
    intros k l r Hin Ha. simpl in Hin.
    destruct Hin as [[= <- <-]|[[= <- <-]|[]]]; simpl in Ha;
      inversion Ha; simpl; tauto.
  - apply (proj2 (report_performance_returns_iff stale_assignment_state)
             (KeyError (VStr "Dave"))).
    reflexivity.
Defined.

Lemma report_counts_by_source_witness :
  exists r : Report,
    report_performance (example_state ascii_lower) = (Return r, example_state ascii_lower) /\
    PyDict.get_default "web_form" 0 (leads_by_source (report_data r)) = 1 /\
    PyDict.get_default "cold_call" 0 (leads_by_source (report_data r)) = 0.
Proof.
  eexists. split; [vm_compute; reflexivity|].
  match goal with
  | |- context [report_data ?r] =>
      pose proof (report_counts_by_source (example_state ascii_lower) (example_state ascii_lower) r eq_refl)
        as Hcnt
  end.
  split.
  - rewrite (proj1 (Hcnt "web_form")). reflexivity.
  - rewrite (proj1 (Hcnt "cold_call")). reflexivity.
Defined.

Lemma report_counts_by_score_witness :
  exists r : Report,
    report_performance (example_state ascii_lower) = (Return r, example_state ascii_lower) /\
    leads_by_score (report_data r) = [("MQL", 0); ("SQL", 1)].
Proof.
  eexists. split; [vm_compute; reflexivity|].
  match goal with
  | |- context [report_data ?r] =>
      rewrite (report_counts_by_score (example_state ascii_lower) (example_state ascii_lower) r eq_refl)
  end.
  reflexivity.
Defined.

Lemma report_counts_by_rep_witness :
  exists r : Report,
    report_performance (example_state ascii_lower) = (Return r, example_state ascii_lower) /\
    PyDict.keys (leads_by_rep (report_data r)) = ["Alice"; "Bob"; "Carol"] /\
    PyDict.get_default "Bob" 0 (leads_by_rep (report_data r)) = 1 /\
    sum_values (leads_by_rep (report_data r)) = 2.
Proof.
  eexists. split; [vm_compute; reflexivity|].
  match goal with
  | |- context [report_data ?r] =>
      destruct (report_counts_by_rep (example_state ascii_lower) (example_state ascii_lower) r eq_refl)
        as [_ [Hkeys [Hcnt Hsum]]]
  end.
  split; [|split].
  - rewrite Hkeys; [reflexivity|].
    simpl. repeat constructor; simpl; intuition discriminate.
  - rewrite Hcnt. reflexivity.
  - rewrite Hsum. reflexivity.
Defined.

Lemma route_all_fair_witness :
  exists (leads : list Lead) (s' : State),
    route_all [1; 2; 3] (intake_state ascii_lower) = (Return leads, s') /\
    map (fun lead_id => PyDict.get lead_id (LEADS s')) [1; 2; 3]
      = map Some leads /\
    stored_with_rep Bob s' [1; 2; 3] = 1.
Proof.
  destruct (route_all_succeeds [1; 2; 3] (intake_state ascii_lower))
    as [leads [s' Hrun]].
  - discriminate.
  - intros i Hi. simpl in Hi.
    destruct Hi as [<-|[<-|[<-|[]]]]; discriminate.
  - exists leads, s'. split; [exact Hrun|].
    destruct (route_all_fair _ _ _ _ Bob Hrun) as [Hst Hfair].
    + repeat constructor; simpl; intuition discriminate.
    + simpl. repeat constructor; simpl; intuition discriminate.
    + simpl. tauto.
    + split; [exact Hst|].
      change (Z.of_nat (List.length [1; 2; 3])
              / Z.of_nat (List.length (SALES_REPS (intake_state ascii_lower))))
        with 1 in Hfair.
      change ((Z.of_nat (List.length [1; 2; 3])
               + Z.of_nat (List.length (SALES_REPS (intake_state ascii_lower)))
               - 1)
              / Z.of_nat (List.length (SALES_REPS (intake_state ascii_lower))))
        with 1 in Hfair.
      lia.
Defined.

Lemma stored_lead_kept_witness :
  reachable ascii_lower (example_state ascii_lower) /\
  exists l' : Lead,
    PyDict.get 2 (LEADS (run_op ascii_lower (Enrich 2) (example_state ascii_lower))) = Some l' /\
    name l' = "Bo Li" /\ source l' = "referral".
Proof.
  assert (Hr : reachable ascii_lower (example_state ascii_lower))
    by (apply run_ops_reachable, reachable_init).
  split; [exact Hr|].
  destruct (stored_lead_kept ascii_lower (example_state ascii_lower) Hr (Enrich 2) 2
              (mkLead 2 101 "Bo Li" "bo@x.com" "referral"
                      [("company", VStr "Initech")] "assigned" None (Some Bob))
              eq_refl)
    as [l' [Hget [_ [_ [Hn [_ [Hsrc _]]]]]]].
  exists l'. split; [exact Hget|]. split; [exact Hn | exact Hsrc].
Defined.

Lemma store_after_run_witness :
  PyDict.keys (LEADS (example_state ascii_lower)) = [1; 2] /\
  id (mkLead 2 101 "Bo Li" "bo@x.com" "referral"
             [("company", VStr "Initech")] "assigned" None (Some Bob)) = 2.
Proof.
  destruct (store_after_run ascii_lower example_ops) as [_ [Hkeys Hids]].
  split; [exact Hkeys|].
  apply Hids. simpl. right. left. reflexivity.
Defined.

Lemma lifecycle_returns_iff_present_witness :
  succeeded (fst (route_lead 2 (example_state ascii_lower))) = true /\
  succeeded (fst (route_lead 5 (example_state ascii_lower))) = false.
Proof.
  split.
  - now rewrite (proj2 (proj2 (lifecycle_returns_iff_present ascii_lower (example_state ascii_lower) 2
                                 ltac:(discriminate)))).
  - now rewrite (proj2 (proj2 (lifecycle_returns_iff_present ascii_lower (example_state ascii_lower) 5
                                 ltac:(discriminate)))).
Defined.

Lemma score_after_enrich_witness :
  PyDict.get 2 (LEADS (example_state ascii_lower)) <> None /\
  exists (l1 : Lead) (s1 : State) (l2 : Lead) (s2 : State),
    enrich_lead ascii_lower 2 (example_state ascii_lower) = (Return l1, s1) /\
    score_lead 2 s1 = (Return l2, s2) /\
    score l2 = Some "MQL".
Proof.
  split; [discriminate|].
  destruct (score_after_enrich ascii_lower (example_state ascii_lower) 2
              (mkLead 2 101 "Bo Li" "bo@x.com" "referral"
                      [("company", VStr "Initech")] "assigned" None (Some Bob))
              eq_refl)
    as [l1 [s1 [l2 [s2 [Hen [Hsc [_ Hscore]]]]]]].
  exists l1, s1, l2, s2. split; [exact Hen|]. split; [exact Hsc | exact Hscore].
Defined.

Lemma process_lead_and_report_stages_witness :
  exists (res : ProcessResult) (s' : State),
    process_lead_and_report ascii_lower 102 "Cy Ng" "cy@x.com" "web_form" (example_state ascii_lower)
      = (Return res, s') /\
    route_counter s' = 3 /\
    total_leads (process_report_data res) = 3.
Proof.
  destruct (process_lead_and_report_stages ascii_lower (example_state ascii_lower) 102 "Cy Ng"
              "cy@x.com" "web_form") as [rep [Hnth Hrun]].
  - discriminate.
  - inversion Hnth; subst rep. eexists. eexists.
    split; [rewrite Hrun; vm_compute; reflexivity|].
    split; reflexivity.
Defined.

Lemma process_lead_and_report_counts_witness :
  reachable ascii_lower (example_state ascii_lower) /\
  exists (res : ProcessResult) (s' : State),
    process_lead_and_report ascii_lower 102 "Cy Ng" "cy@x.com" "web_form" (example_state ascii_lower)
      = (Return res, s') /\
    total_leads (process_report_data res) = 3 /\
    leads_by_score (process_report_data res) = [("MQL", 0); ("SQL", 2)] /\
    PyDict.get_default "Carol" 0 (leads_by_rep (process_report_data res)) = 1.
Proof.
  assert (Hr : reachable ascii_lower (example_state ascii_lower))
    by (apply run_ops_reachable, reachable_init).
  split; [exact Hr|].
  destruct (process_lead_and_report_counts ascii_lower (example_state ascii_lower) 102 "Cy Ng"
              "cy@x.com" "web_form" Hr)
    as [res [s' [r0 [rep [mql [sql
         [Hrun [Hr0 [Hnth [_ [Htot [_ [Hsco0 [Hsco [Hrep _]]]]]]]]]]]]]]].
  assert (Hr0' : r0 = match fst (report_performance (example_state ascii_lower)) with
                      | Return r => r
                      | Raise _ => r0
                      end) by (rewrite Hr0; reflexivity).
  vm_compute in Hr0'. subst r0.
  inversion Hnth; subst rep. inversion Hsco0; subst mql sql.
  exists res, s'. split; [exact Hrun|]. split; [exact Htot|].
  split; [exact Hsco|]. rewrite (Hrep "Carol"). reflexivity.
Defined.

Lemma enrichment_ignores_spaces_witness :
  enrichment_for ascii_lower
    (mkLead 2 0 "JaneDoe" "j@x.com" "ads" [] "new" None None)
  = enrichment_for ascii_lower
      (mkLead 1 0 "Jane Doe" "jane@x.com" "web_form" [] "new" None None).
Proof.
  apply (enrichment_ignores_spaces ascii_lower _ _ "Jane" "Doe").
  - reflexivity.
  - left. reflexivity.
Defined.

Lemma route_lead_reassigns_witness :
  exists (l1 : Lead) (s1 : State) (l2 : Lead) (s2 : State),
    route_lead 1 (example_state ascii_lower) = (Return l1, s1) /\
    route_lead 1 s1 = (Return l2, s2) /\
    route_counter s2 = 4 /\
    assigned_to l2 <> assigned_to l1.
Proof.
  destruct (route_lead_reassigns (example_state ascii_lower) 1
              (mkLead 1 100 "Jane Doe" "jane@x.com" "web_form"
                 [("company", VStr "Acme Corp");
                  ("linkedin", VStr "https://linkedin.com/in/janedoe");
                  ("industry", VStr "Technology");
                  ("location", VStr "San Francisco, CA")]
                 "assigned" (Some "SQL") (Some Alice)) eq_refl)
    as [l1 [s1 [l2 [s2 [H1 [H2 [_ [Hc [_ [_ Hne]]]]]]]]]].
  - simpl. repeat constructor; simpl; intuition discriminate.
  - simpl. lia.
  - exists l1, s1, l2, s2. repeat split; assumption.
Defined.

Lemma score_lead_idempotent_witness :
  exists (l1 : Lead) (s1 : State),
    score_lead 1 (example_state ascii_lower) = (Return l1, s1) /\
    score_lead 1 s1 = (Return l1, s1).
Proof.
  apply (score_lead_idempotent (example_state ascii_lower) 1
           (mkLead 1 100 "Jane Doe" "jane@x.com" "web_form"
              [("company", VStr "Acme Corp");
               ("linkedin", VStr "https://linkedin.com/in/janedoe");
               ("industry", VStr "Technology");
               ("location", VStr "San Francisco, CA")]
              "assigned" (Some "SQL") (Some Alice)) eq_refl).
Defined.

Lemma report_performance_returns_on_runs_witness :
  reachable ascii_lower (example_state ascii_lower) /\
  (exists r : Report,
      report_performance (example_state ascii_lower)
      = (Return r, example_state ascii_lower)) /\
  exists r : Report,
    report_performance initial_state = (Return r, initial_state) /\
    total_leads (report_data r) = 0.
Proof.
  assert (Hr : reachable ascii_lower (example_state ascii_lower))
    by (apply run_ops_reachable, reachable_init).
  destruct (report_performance_returns_on_runs ascii_lower)
    as [Hruns [_ Hempty]].
  split; [exact Hr|]. split.
  - exact (proj2 (Hruns (example_state ascii_lower) Hr)).
  - destruct (Hempty initial_state eq_refl) as [r [Hrun [Htot _]]].
    exists r. split; [exact Hrun | exact Htot].
Defined.
